(** * pyENSDF [ensdf/core.py]: a shallow embedding and its properties

    The parser of ENSDF card-image datasets, embedded definition by
    definition: Python strings are [string]s (a character is a code point
    below 256), lists are [list]s, the insertion-ordered [dict] of a record's
    [prop] is an association list updated in place, exceptions are the
    [Raise] results of a small error monad, and the objects the parser
    mutates while it runs (the levels' [decays] and [populating] lists, the
    dataset's record lists) live in an explicit [Dataset] state that is passed
    along.  A Python [float] is a binary64 number, with the operations of the
    Standard Library's [SpecFloat]: each one rounds to nearest, ties to
    even. *)

From Stdlib Require Import String Ascii List Bool Arith ZArith SpecFloat Lia
  Sorted.
Import ListNotations.
Open Scope string_scope.
Open Scope list_scope.
Open Scope nat_scope.

(** ** Exceptions and the error monad *)

Inductive exn : Type :=
| IndexError
| KeyError
| ValueError
| TypeError
| AttributeError
| ZeroDivisionError
| OverflowError
| NotImplementedError.

Inductive result (A : Type) : Type :=
| Ok (a : A)
| Raise (e : exn).

Arguments Ok {A} a.
Arguments Raise {A} e.

Definition bind {A B : Type} (m : result A) (k : A -> result B) : result B :=
  match m with
  | Ok a => k a
  | Raise e => Raise e
  end.

Notation "x <- m ;; k" := (bind m (fun x => k))
  (at level 61, m at next level, right associativity).
Notation "' p <- m ;; k" := (bind m (fun x => let p := x in k))
  (at level 61, p pattern, m at next level, right associativity).

(** ** Python string primitives *)

Module Py.

(** [str.isspace] on code points below 256. *)
Definition is_space (c : ascii) : bool :=
  let n := nat_of_ascii c in
  ((9 <=? n) && (n <=? 13)) || ((28 <=? n) && (n <=? 32))
  || (n =? 133) || (n =? 160).

Definition lower_char (c : ascii) : ascii :=
  let n := nat_of_ascii c in
  if (65 <=? n) && (n <=? 90) then ascii_of_nat (n + 32) else c.

Definition upper_char (c : ascii) : ascii :=
  let n := nat_of_ascii c in
  if (97 <=? n) && (n <=? 122) then ascii_of_nat (n - 32) else c.

Fixpoint lower (s : string) : string :=
  match s with
  | "" => ""
  | String c r => String (lower_char c) (lower r)
  end.

(** [s[i]] for [0 <= i]: one character, or [IndexError]. *)
Definition index (s : string) (i : nat) : result ascii :=
  match String.get i s with
  | Some c => Ok c
  | None => Raise IndexError
  end.

(** [s[a:b]] and [s[a:]] for non-negative bounds; slices never raise. *)
Definition slice (s : string) (a b : nat) : string := substring a (b - a) s.

Fixpoint slice_from (s : string) (a : nat) : string :=
  match a, s with
  | O, _ => s
  | S _, "" => ""
  | S a', String _ r => slice_from r a'
  end.

Fixpoint lstrip (s : string) : string :=
  match s with
  | "" => ""
  | String c r => if is_space c then lstrip r else s
  end.

Fixpoint rstrip (s : string) : string :=
  match s with
  | "" => ""
  | String c r =>
      match rstrip r with
      | "" => if is_space c then "" else String c ""
      | r' => String c r'
      end
  end.

Definition strip (s : string) : string := rstrip (lstrip s).

(** [c in s] for a one-character [c]. *)
Fixpoint mem_char (c : ascii) (s : string) : bool :=
  match s with
  | "" => false
  | String d r => Ascii.eqb c d || mem_char c r
  end.

(** [sub in s]. *)
Fixpoint contains (sub s : string) : bool :=
  prefix sub s || match s with
                  | "" => false
                  | String _ r => contains sub r
                  end.

(** [s.split(sep, maxsplit=1)] when [sep] occurs in [s]: the text before its
    first occurrence and the text after it. *)
Fixpoint split_once (sep : ascii) (s : string) : option (string * string) :=
  match s with
  | "" => None
  | String c r =>
      if Ascii.eqb c sep then Some ("", r)
      else match split_once sep r with
           | Some (a, b) => Some (String c a, b)
           | None => None
           end
  end.

(** [s.split(sep, maxsplit=n)]: at most [n] cuts, so at most [n + 1] parts
    and always at least one. *)
Fixpoint split_max (sep : ascii) (n : nat) (s : string) : list string :=
  match n with
  | O => [s]
  | S n' =>
      match split_once sep s with
      | None => [s]
      | Some (a, b) => a :: split_max sep n' b
      end
  end.

(** [s.split(sep)]: a string of length [n] holds at most [n] separators. *)
Definition split (sep : ascii) (s : string) : list string :=
  split_max sep (String.length s) s.

(** [s[-1]] and [s[:-1]]. *)
Fixpoint last_char (s : string) : result ascii :=
  match s with
  | "" => Raise IndexError
  | String c "" => Ok c
  | String _ r => last_char r
  end.

Fixpoint drop_last (s : string) : string :=
  match s with
  | "" => ""
  | String _ "" => ""
  | String c r => String c (drop_last r)
  end.

(** [l[:-1]] on a list. *)
Definition list_drop_last {A : Type} (l : list A) : list A := removelast l.

(** The characters of a string, each as a one-character string: what
    iterating over a [str] yields. *)
Fixpoint chars (s : string) : list string :=
  match s with
  | "" => []
  | String c r => String c "" :: chars r
  end.

End Py.

(** ** The [prop] dictionary

    A Python [dict] keeps insertion order; assigning to a key that is present
    replaces the value where the key stands. *)

Definition dict : Type := list (string * string).

Fixpoint dict_get (d : dict) (k : string) : option string :=
  match d with
  | [] => None
  | (k', v) :: r => if String.eqb k k' then Some v else dict_get r k
  end.

Fixpoint dict_set (d : dict) (k v : string) : dict :=
  match d with
  | [] => [(k, v)]
  | (k', v') :: r =>
      if String.eqb k k' then (k, v) :: r else (k', v') :: dict_set r k v
  end.

Definition dict_mem (d : dict) (k : string) : bool :=
  match dict_get d k with Some _ => true | None => false end.

(** ** [Record.load_prop] *)

(** [load_prop] leaves through [return] from inside its loops; [Return]
    records that the remaining entries and lines are not visited. *)
Inductive flow : Type := Continue | Return.

(** [for symb in ["<", ">"]: if symb in entry: ...]: the first symbol of the
    list that occurs in the entry. *)
Fixpoint first_symb (symbs : list ascii) (entry : string) : option ascii :=
  match symbs with
  | [] => None
  | symb :: rest =>
      if Py.mem_char symb entry then Some symb else first_symb rest entry
  end.

Definition abbreviations : list string :=
  ["GT"; "LT"; "GE"; "LE"; "AP"; "CA"; "SY"].

(** [for abbr in [...]: if f" {abbr} " in entry: ...]. *)
Fixpoint first_abbr (abbrs : list string) (entry : string) : option string :=
  match abbrs with
  | [] => None
  | abbr :: rest =>
      if Py.contains (" " ++ abbr ++ " ") entry then Some abbr
      else first_abbr rest entry
  end.

(** The body of the inner loop for one [$]-separated entry. *)
Definition load_prop_entry (prop : dict) (raw_entry : string)
  : result (dict * flow) :=
  let entry := Py.strip raw_entry in
  if String.eqb entry "" then Ok (prop, Continue)
  else if Py.mem_char "=" entry then
    match Py.split_max "=" 1 entry with
    | [quant; value] =>
        Ok (dict_set prop (Py.strip quant) (Py.strip value), Continue)
    | _ => Raise ValueError
    end
  else
    match first_symb ["<"; ">"]%char entry with
    | Some symb =>
        match Py.split_max symb 1 entry with
        | [quant; value] =>
            Ok (dict_set prop (Py.strip quant)
                  (String symb (Py.strip value)), Return)
        | _ => Raise ValueError
        end
    | None =>
        match first_abbr abbreviations entry with
        | Some _ =>
            (* quant, quant, value = entry.split(" ", maxsplit=2): the second
               assignment to [quant] overwrites the first. *)
            match Py.split_max " " 2 entry with
            | [_; quant; value] =>
                Ok (dict_set prop (Py.strip quant)
                      (Py.strip value ++ " " ++ quant), Return)
            | _ => Raise ValueError
            end
        | None =>
            c <- Py.last_char entry ;;
            if Ascii.eqb c "?" then
              Ok (dict_set prop (Py.drop_last entry) "?", Return)
            else Raise ValueError
        end
    end.

Fixpoint load_prop_entries (prop : dict) (entries : list string)
  : result (dict * flow) :=
  match entries with
  | [] => Ok (prop, Continue)
  | entry :: rest =>
      '(prop', fl) <- load_prop_entry prop entry ;;
      match fl with
      | Return => Ok (prop', Return)
      | Continue => load_prop_entries prop' rest
      end
  end.

Fixpoint load_prop_lines (prop : dict) (lines : list string)
  : result (dict * flow) :=
  match lines with
  | [] => Ok (prop, Continue)
  | line :: rest =>
      '(prop', fl) <-
        load_prop_entries prop (Py.split "$" (Py.slice_from line 9)) ;;
      match fl with
      | Return => Ok (prop', Return)
      | Continue => load_prop_lines prop' rest
      end
  end.

Definition load_prop (prop : dict) (lines : list string) : result dict :=
  '(prop', _) <- load_prop_lines prop lines ;;
  Ok prop'.

(** ** Python floats

    A [float] is an IEEE 754 binary64 number: a signed zero, a signed
    infinity, a NaN, or [m * 2 ^ e] with a sign.  The arithmetic is that of
    [SpecFloat] at 53 bits of precision: the exact result rounded to
    nearest, ties to even.  [+], [-], [*] and [abs] never raise; [/] raises
    [ZeroDivisionError] on a zero divisor, which is checked where the
    division stands. *)

Definition float : Type := spec_float.

Module Float.

Definition prec : Z := 53.
Definition emax : Z := 1024.

Definition add (x y : float) : float := SFadd prec emax x y.
Definition sub (x y : float) : float := SFsub prec emax x y.
Definition mul (x y : float) : float := SFmul prec emax x y.
Definition div (x y : float) : float := SFdiv prec emax x y.
Definition abs (x : float) : float := SFabs x.

(** [x < y], [x <= y] and [x == y]: all false when an operand is a NaN. *)
Definition ltb (x y : float) : bool := SFltb x y.
Definition eqb (x y : float) : bool := SFeqb x y.


Definition zero : float := S754_zero false.

(** The conversion of a Python [int] that meets a [float] in an arithmetic
    operation: the nearest double, [OverflowError] when there is none. *)
Definition of_int (n : Z) : result float :=
  match binary_normalize prec emax n 0 false with
  | S754_infinity _ => Raise OverflowError
  | f => Ok f
  end.

(** The double of a decimal numeral [m * 10 ^ k] with sign [neg], rounded
    once, as [float(str)] and a float literal do. *)
Definition decimal (neg : bool) (m k : Z) : float :=
  match m with
  | Zpos p =>
      if (0 <=? k)%Z then
        binary_normalize prec emax (cond_Zopp neg (m * 10 ^ k)) 0 false
      else
        SFdiv prec emax (S754_finite neg p 0)
          (S754_finite false (Z.to_pos (10 ^ (- k))) 0)
  | _ => S754_zero neg
  end.

(** The literals [1], [2] and [.001]. *)
Definition one : float := decimal false 1 0.
Definition two : float := decimal false 2 0.
Definition milli : float := decimal false 1 (-3).

End Float.

Declare Scope pyfloat_scope.
Delimit Scope pyfloat_scope with F.
Notation "x + y" := (Float.add x y) : pyfloat_scope.
Notation "x - y" := (Float.sub x y) : pyfloat_scope.
Notation "x * y" := (Float.mul x y) : pyfloat_scope.
Notation "x / y" := (Float.div x y) : pyfloat_scope.

(** ** [Quantity] and the other collaborators of [util]

    [core.py] imports [Quantity] and [az_from_nucid] from [util] and reads
    the atomic mass constant from [scipy.constants]; none of the three is
    defined in [core.py], which only uses a quantity's [val] and [offset].
    The parser is therefore embedded over an interface [Util]. *)

Inductive Qualifier : Type :=
| Exact | LessThan | GreaterThan | Approximately | Calculated | Systematics
| Unspecified.

Record Quantity : Type := mkQuantity {
  val : option float;
  qualifier : Qualifier;
  pm : option string;
  offset : option ascii;
  has_unit : bool
}.

Record Util : Type := mkUtil {
  (** [Quantity(val, pm, has_unit)]; [pm] is [None] where the call leaves
      it out. *)
  Quantity_new : string -> option string -> bool -> result Quantity;
  (** The first component of [az_from_nucid(nucid)], the mass number; the
      proton count is unpacked into [_] and not used. *)
  az_from_nucid : string -> result Z;
  (** [physical_constants["atomic mass constant energy equivalent in MeV"][0]]. *)
  amu : float
}.

Definition option_ascii_eqb (a b : option ascii) : bool :=
  match a, b with
  | None, None => true
  | Some x, Some y => Ascii.eqb x y
  | _, _ => false
  end.

(** ** The record model *)

(** The identity of the [Dataset] object whose constructor is running. *)
Definition DatasetRef : Type := nat.

Record GeneralCommentRecord : Type := mkGeneralComment {
  gc_dataset : DatasetRef;
  gc_comment : list string
}.

Definition GeneralCommentRecord_init (dataset : DatasetRef)
  (comment : list string) : GeneralCommentRecord :=
  {| gc_dataset := dataset; gc_comment := comment |}.

(** The attributes [Record.__init__] sets. *)
Record RecordBase : Type := mkRecordBase {
  prop : dict;
  dataset : DatasetRef;
  comments : list GeneralCommentRecord;
  xref : option (list string)
}.

(** [if comments:] is false for [None] and for the empty list alike. *)
Definition Record_init (ds : DatasetRef) (cmts : option (list (list string)))
  (xr : option (list string)) : RecordBase :=
  {| prop := [];
     dataset := ds;
     comments := match cmts with
                 | Some cs => map (GeneralCommentRecord_init ds) cs
                 | None => []
                 end;
     xref := xr |}.

Definition with_prop (b : RecordBase) (p : dict) : RecordBase :=
  {| prop := p; dataset := dataset b; comments := comments b; xref := xref b |}.

(** [QValueRecord.__init__] stores five fields and nothing else. *)
Record QValueRecord : Type := mkQValue {
  q_beta_minus : string * string;
  neutron_separation : string * string;
  proton_separation : string * string;
  alpha_decay : string * string;
  q_ref : string
}.

Record CrossReferenceRecord : Type := mkCrossReference {
  x_dataset : DatasetRef;
  dssym : ascii;
  dsid : string
}.

Record ReferenceRecord : Type := mkReference {
  r_prop : dict;
  r_dataset : DatasetRef
}.

(** A level refers to its gammas, and a decay to its levels, by position:
    [decays] and [populating] hold indices into the dataset's [records],
    [dest_level] and [orig_level] indices into its [levels]. *)
Record LevelRecord : Type := mkLevel {
  l_base : RecordBase;
  decays : list nat;
  populating : list nat;
  attrs : dict;
  l_energy : Quantity;
  ang_mom : string;
  half_life : Quantity;
  l_questionable : bool;
  l_expected : bool;
  metastable : bool;
  spec_strength : Quantity
}.

Record GammaFields : Type := mkGamma {
  orig_level : option nat;
  g_energy : Quantity;
  rel_intensity : Quantity;
  multipolarity : string;
  mixing_ratio : Quantity;
  conversion_coeff : Quantity;
  rel_tot_trans_intensity : Quantity;
  g_questionable : bool;
  g_expected : bool;
  attr : list (string * Quantity)
}.

Inductive DecayKind : Type :=
| Beta (energy : Quantity) (questionable expected : bool)
| EC
| Alpha
| Particle (prompt_emission delayed_emission : bool)
| Gamma (g : GammaFields).

Record DecayRecord : Type := mkDecay {
  d_base : RecordBase;
  dest_level : option nat;
  d_kind : DecayKind
}.

Record Dataset : Type := mkDataset {
  self_ref : DatasetRef;
  header : string;
  raw : list string;
  nucid : string;
  dataset_id : string;
  dataset_ref : string;
  publication : string;
  (** [header[74:80].strip()], the text [datetime.strptime] is given. *)
  date_text : string;
  records : list DecayRecord;
  levels : list LevelRecord;
  history : dict;
  qrecords : list QValueRecord;
  ds_comments : list string;
  parents : list RecordBase;
  references : list ReferenceRecord;
  cross_references : list CrossReferenceRecord
}.

Definition set_records (ds : Dataset) (rs : list DecayRecord) : Dataset :=
  {| self_ref := self_ref ds; header := header ds; raw := raw ds;
     nucid := nucid ds; dataset_id := dataset_id ds;
     dataset_ref := dataset_ref ds; publication := publication ds;
     date_text := date_text ds; records := rs; levels := levels ds;
     history := history ds; qrecords := qrecords ds;
     ds_comments := ds_comments ds; parents := parents ds;
     references := references ds; cross_references := cross_references ds |}.

Definition set_levels (ds : Dataset) (ls : list LevelRecord) : Dataset :=
  {| self_ref := self_ref ds; header := header ds; raw := raw ds;
     nucid := nucid ds; dataset_id := dataset_id ds;
     dataset_ref := dataset_ref ds; publication := publication ds;
     date_text := date_text ds; records := records ds; levels := ls;
     history := history ds; qrecords := qrecords ds;
     ds_comments := ds_comments ds; parents := parents ds;
     references := references ds; cross_references := cross_references ds |}.

Definition set_history (ds : Dataset) (h : dict) : Dataset :=
  {| self_ref := self_ref ds; header := header ds; raw := raw ds;
     nucid := nucid ds; dataset_id := dataset_id ds;
     dataset_ref := dataset_ref ds; publication := publication ds;
     date_text := date_text ds; records := records ds; levels := levels ds;
     history := h; qrecords := qrecords ds;
     ds_comments := ds_comments ds; parents := parents ds;
     references := references ds; cross_references := cross_references ds |}.

Definition add_qrecord (ds : Dataset) (q : QValueRecord) : Dataset :=
  {| self_ref := self_ref ds; header := header ds; raw := raw ds;
     nucid := nucid ds; dataset_id := dataset_id ds;
     dataset_ref := dataset_ref ds; publication := publication ds;
     date_text := date_text ds; records := records ds; levels := levels ds;
     history := history ds; qrecords := qrecords ds ++ [q];
     ds_comments := ds_comments ds; parents := parents ds;
     references := references ds; cross_references := cross_references ds |}.

Definition add_comment (ds : Dataset) (line : string) : Dataset :=
  {| self_ref := self_ref ds; header := header ds; raw := raw ds;
     nucid := nucid ds; dataset_id := dataset_id ds;
     dataset_ref := dataset_ref ds; publication := publication ds;
     date_text := date_text ds; records := records ds; levels := levels ds;
     history := history ds; qrecords := qrecords ds;
     ds_comments := ds_comments ds ++ [line]; parents := parents ds;
     references := references ds; cross_references := cross_references ds |}.

Definition add_parent (ds : Dataset) (p : RecordBase) : Dataset :=
  {| self_ref := self_ref ds; header := header ds; raw := raw ds;
     nucid := nucid ds; dataset_id := dataset_id ds;
     dataset_ref := dataset_ref ds; publication := publication ds;
     date_text := date_text ds; records := records ds; levels := levels ds;
     history := history ds; qrecords := qrecords ds;
     ds_comments := ds_comments ds; parents := parents ds ++ [p];
     references := references ds; cross_references := cross_references ds |}.

Definition add_reference (ds : Dataset) (r : ReferenceRecord) : Dataset :=
  {| self_ref := self_ref ds; header := header ds; raw := raw ds;
     nucid := nucid ds; dataset_id := dataset_id ds;
     dataset_ref := dataset_ref ds; publication := publication ds;
     date_text := date_text ds; records := records ds; levels := levels ds;
     history := history ds; qrecords := qrecords ds;
     ds_comments := ds_comments ds; parents := parents ds;
     references := references ds ++ [r];
     cross_references := cross_references ds |}.

Definition add_cross_reference (ds : Dataset) (x : CrossReferenceRecord)
  : Dataset :=
  {| self_ref := self_ref ds; header := header ds; raw := raw ds;
     nucid := nucid ds; dataset_id := dataset_id ds;
     dataset_ref := dataset_ref ds; publication := publication ds;
     date_text := date_text ds; records := records ds; levels := levels ds;
     history := history ds; qrecords := qrecords ds;
     ds_comments := ds_comments ds; parents := parents ds;
     references := references ds;
     cross_references := cross_references ds ++ [x] |}.

(** ** Record constructors *)

(** [d[k]]. *)
Definition getitem (d : dict) (k : string) : result string :=
  match dict_get d k with
  | Some v => Ok v
  | None => Raise KeyError
  end.

(** [prop[k1] = v1; prop[k2] = v2; ...] in this order. *)
Definition set_all (p : dict) (kvs : list (string * string)) : dict :=
  fold_left (fun d kv => dict_set d (fst kv) (snd kv)) kvs p.

(** [line[a:b].strip()] and [line[i].strip()]. *)
Definition field (line : string) (a b : nat) : string :=
  Py.strip (Py.slice line a b).

Definition field_at (line : string) (i : nat) : result string :=
  c <- Py.index line i ;;
  Ok (Py.strip (String c "")).

(** What a constructor receives as [record]: the parser's body path passes
    the list of a record's lines, its header path a single line, a [str].
    Both support [record[0]] and [record[1:]]. *)
Inductive pyseq : Type :=
| PyStr (s : string)
| PyList (l : list string).

(** [record[0]]: the first line of a list, the first character of a string. *)
Definition seq_item0 (record : pyseq) : result string :=
  match record with
  | PyStr "" => Raise IndexError
  | PyStr (String c _) => Ok (String c "")
  | PyList [] => Raise IndexError
  | PyList (x :: _) => Ok x
  end.

(** The items [for line in record[1:]] visits. *)
Definition seq_tail_items (record : pyseq) : list string :=
  match record with
  | PyStr s => Py.chars (Py.slice_from s 1)
  | PyList l => tl l
  end.

Definition QValueRecord_init (ds : DatasetRef) (line : string) : QValueRecord :=
  {| q_beta_minus := (field line 9 19, field line 19 21);
     neutron_separation := (field line 21 29, field line 29 31);
     proton_separation := (field line 31 39, field line 39 41);
     alpha_decay := (field line 41 49, field line 49 55);
     q_ref := field line 55 80 |}.

Definition CrossReferenceRecord_init (ds : DatasetRef) (line : string)
  : result CrossReferenceRecord :=
  c <- Py.index line 8 ;;
  Ok {| x_dataset := ds; dssym := c; dsid := field line 9 39 |}.

Definition ReferenceRecord_init (ds : DatasetRef) (line : string)
  : ReferenceRecord :=
  {| r_prop := set_all [] [("MASS", field line 0 3);
                           ("KEYNUM", field line 9 17);
                           ("REFERENCE", field line 17 80)];
     r_dataset := ds |}.

Definition ParentRecord_init (ds : DatasetRef) (record : pyseq)
  : result RecordBase :=
  let base := Record_init ds None None in
  r0 <- seq_item0 record ;;
  let p := set_all (prop base)
             [("E", field r0 9 19); ("DE", field r0 19 21);
              ("J", field r0 21 39); ("T", field r0 39 49);
              ("DT", field r0 49 55); ("QP", field r0 64 74);
              ("DQP", field r0 74 76); ("ION", field r0 76 80)] in
  p' <- load_prop p (seq_tail_items record) ;;
  Ok (with_prop base p').

Section Constructors.

Variable U : Util.

Definition LevelRecord_init (ds : DatasetRef) (record : list string)
  (cmts : list (list string)) (xr : list string) : result LevelRecord :=
  let base := Record_init ds (Some cmts) (Some xr) in
  r0 <- seq_item0 (PyList record) ;;
  let p := set_all (prop base)
             [("E", field r0 9 19); ("DE", field r0 19 21);
              ("J", field r0 21 39); ("T", field r0 39 49);
              ("DT", field r0 49 55); ("L", field r0 55 64);
              ("S", field r0 64 74); ("DS", field r0 74 76)] in
  c <- field_at r0 76 ;;
  let p := set_all p [("C", c); ("MS", field r0 77 79)] in
  q <- field_at r0 79 ;;
  let p := dict_set p "Q" q in
  p <- load_prop p (tl record) ;;
  e <- getitem p "E" ;; de <- getitem p "DE" ;;
  energy <- Quantity_new U e (Some de) true ;;
  j <- getitem p "J" ;;
  t <- getitem p "T" ;; dt <- getitem p "DT" ;;
  hl <- Quantity_new U t (Some dt) true ;;
  qq <- getitem p "Q" ;;
  ms <- getitem p "MS" ;;
  s <- getitem p "S" ;; dsv <- getitem p "DS" ;;
  ss <- Quantity_new U s (Some dsv) true ;;
  Ok {| l_base := with_prop base p;
        decays := [];
        populating := [];
        attrs := [];
        l_energy := energy;
        ang_mom := j;
        half_life := hl;
        l_questionable := String.eqb qq "?";
        l_expected := String.eqb qq "S";
        metastable := match ms with
                      | "" => false
                      | String m _ => Ascii.eqb m "M"
                      end;
        spec_strength := ss |}.

(** [DecayRecord.__init__] adds [dest_level] to the attributes of [Record]. *)
Definition decay_with (b : RecordBase) (dest : option nat) (k : DecayKind)
  : DecayRecord :=
  {| d_base := b; dest_level := dest; d_kind := k |}.

Definition BetaRecord_init (ds : DatasetRef) (record : list string)
  (cmts : list (list string)) (xr : list string) (dest : option nat)
  : result DecayRecord :=
  let base := Record_init ds (Some cmts) (Some xr) in
  r0 <- seq_item0 (PyList record) ;;
  let p := set_all (prop base)
             [("E", field r0 9 19); ("DE", field r0 19 21);
              ("IB", field r0 21 29); ("DIB", field r0 29 31);
              ("LOGFT", field r0 41 49); ("DFT", field r0 49 55)] in
  c <- field_at r0 76 ;;
  let p := set_all p [("C", c); ("UN", field r0 77 79)] in
  q <- field_at r0 79 ;;
  let p := dict_set p "Q" q in
  p <- load_prop p (tl record) ;;
  e <- getitem p "E" ;; de <- getitem p "DE" ;;
  energy <- Quantity_new U e (Some de) true ;;
  qq <- getitem p "Q" ;;
  Ok (decay_with (with_prop base p) dest
        (Beta energy (String.eqb qq "?") (String.eqb qq "S"))).

Definition ECRecord_init (ds : DatasetRef) (record : list string)
  (cmts : list (list string)) (xr : list string) (dest : option nat)
  : result DecayRecord :=
  let base := Record_init ds (Some cmts) (Some xr) in
  r0 <- seq_item0 (PyList record) ;;
  let p := set_all (prop base)
             [("E", field r0 9 19); ("DE", field r0 19 21);
              ("IB", field r0 21 29); ("DIB", field r0 29 31);
              ("IE", field r0 31 39); ("DIE", field r0 39 41);
              ("LOGFT", field r0 41 49); ("DFT", field r0 49 55);
              ("TI", field r0 64 74); ("DTI", field r0 74 76)] in
  c <- field_at r0 76 ;;
  let p := set_all p [("C", c); ("UN", field r0 77 79)] in
  q <- field_at r0 79 ;;
  let p := dict_set p "Q" q in
  p <- load_prop p (tl record) ;;
  Ok (decay_with (with_prop base p) dest EC).

Definition AlphaRecord_init (ds : DatasetRef) (record : list string)
  (cmts : list (list string)) (xr : list string) (dest : option nat)
  : result DecayRecord :=
  let base := Record_init ds (Some cmts) (Some xr) in
  r0 <- seq_item0 (PyList record) ;;
  let p := set_all (prop base)
             [("E", field r0 9 19); ("DE", field r0 19 21);
              ("IA", field r0 21 29); ("DIA", field r0 29 31);
              ("HF", field r0 31 39); ("DHF", field r0 39 41)] in
  c <- field_at r0 76 ;;
  let p := dict_set p "C" c in
  q <- field_at r0 79 ;;
  let p := dict_set p "Q" q in
  p <- load_prop p (tl record) ;;
  Ok (decay_with (with_prop base p) dest Alpha).

Definition ParticleRecord_init (ds : DatasetRef) (record : list string)
  (cmts : list (list string)) (xr : list string) (dest : option nat)
  : result DecayRecord :=
  let base := Record_init ds (Some cmts) (Some xr) in
  r0 <- seq_item0 (PyList record) ;;
  d <- Py.index r0 7 ;;
  part <- Py.index r0 8 ;;
  let p := set_all (prop base)
             [("D", String d ""); ("Particle", String part "");
              ("E", field r0 9 19); ("DE", field r0 19 21);
              ("IP", field r0 21 29); ("DIP", field r0 29 31);
              ("EI", field r0 31 39); ("T", field r0 39 49);
              ("DT", field r0 49 55); ("L", field r0 55 64)] in
  c <- field_at r0 76 ;;
  let p := dict_set p "C" c in
  coin <- field_at r0 78 ;;
  let p := dict_set p "COIN" coin in
  q <- field_at r0 79 ;;
  let p := dict_set p "Q" q in
  p <- load_prop p (tl record) ;;
  dd <- getitem p "D" ;;
  Ok (decay_with (with_prop base p) dest
        (Particle (String.eqb dd " ") (String.eqb dd "D"))).

End Constructors.

(** ** Gamma records and the resolution of their destination level *)

Fixpoint update_nth {A : Type} (i : nat) (f : A -> A) (l : list A) : list A :=
  match l, i with
  | [], _ => []
  | x :: r, O => f x :: r
  | x :: r, S i' => x :: update_nth i' f r
  end.

Definition level_add_decay (decay : nat) (l : LevelRecord) : LevelRecord :=
  {| l_base := l_base l; decays := decays l ++ [decay];
     populating := populating l; attrs := attrs l; l_energy := l_energy l;
     ang_mom := ang_mom l; half_life := half_life l;
     l_questionable := l_questionable l; l_expected := l_expected l;
     metastable := metastable l; spec_strength := spec_strength l |}.

Definition level_add_populating (decay : nat) (l : LevelRecord) : LevelRecord :=
  {| l_base := l_base l; decays := decays l;
     populating := populating l ++ [decay]; attrs := attrs l;
     l_energy := l_energy l; ang_mom := ang_mom l; half_life := half_life l;
     l_questionable := l_questionable l; l_expected := l_expected l;
     metastable := metastable l; spec_strength := spec_strength l |}.

(** [level.add_decay(decay)] on the level at index [lvl]. *)
Definition add_decay (ds : Dataset) (lvl decay : nat) : Dataset :=
  set_levels ds (update_nth lvl (level_add_decay decay) (levels ds)).

(** [level.populating.append(decay)] on the level at index [lvl]. *)
Definition add_populating (ds : Dataset) (lvl decay : nat) : Dataset :=
  set_levels ds (update_nth lvl (level_add_populating decay) (levels ds)).

(** A list with the position of each element. *)
Definition indexed {A : Type} (l : list A) : list (nat * A) :=
  combine (seq 0 (length l)) l.

(** [min(iterable, key=...)]: [ValueError] on an empty list; the key of
    every element is computed; an element replaces the current minimum only
    when its key is strictly smaller, so the first of equal minima wins. *)
Fixpoint min_loop {A : Type} (key : A -> result float) (l : list A)
  (best : A) (kbest : float) : result A :=
  match l with
  | [] => Ok best
  | y :: r =>
      ky <- key y ;;
      if Float.ltb ky kbest then min_loop key r y ky
      else min_loop key r best kbest
  end.

Definition py_min {A : Type} (key : A -> result float) (l : list A)
  : result A :=
  match l with
  | [] => Raise ValueError
  | x :: r => kx <- key x ;; min_loop key r x kx
  end.

(** What the first [if]/[elif]/[else] of [_determine_dest_level] leaves:
    a [return], or a value of [dest_energy] (which is [None] when the
    quantity read from [FL] has no value). *)
Inductive estimate : Type :=
| NoEstimate
| Estimate (dest_energy : option float).

(** [energy_gamma * (1 + 2 * (.001 * energy_gamma) / (mass * amu))], the
    operands evaluated from left to right: [.001 * energy_gamma] fails on
    [None] before the [int] [mass] is converted for [mass * amu], and the
    division comes after both. *)
Definition energy_i (energy_gamma : option float) (mass : Z) (amu_MeV : float)
  : result float :=
  match energy_gamma with
  | None => Raise TypeError
  | Some eg =>
      m <- Float.of_int mass ;;
      let denom := (m * amu_MeV)%F in
      if Float.eqb denom Float.zero then Raise ZeroDivisionError
      else Ok (eg * (Float.one + Float.two * (Float.milli * eg) / denom))%F
  end.

(** [a - b] on values that may be [None]. *)
Definition py_sub (a : option float) (b : float) : result float :=
  match a with
  | Some x => Ok (x - b)%F
  | None => Raise TypeError
  end.

Section Resolution.

Variable U : Util.

Definition estimate_dest_energy (ds : Dataset) (p : dict) (gf : GammaFields)
  : result estimate :=
  if dict_mem p "FL" then
    fl <- getitem p "FL" ;;
    if String.eqb fl "?" then Ok NoEstimate
    else
      q <- Quantity_new U fl None true ;;
      Ok (Estimate (val q))
  else
    match orig_level gf with
    | Some lvl =>
        let energy_gamma := val (g_energy gf) in
        mass <- az_from_nucid U (nucid ds) ;;
        ei <- energy_i energy_gamma mass (amu U) ;;
        match nth_error (levels ds) lvl with
        | Some orig =>
            d <- py_sub (val (l_energy orig)) ei ;;
            Ok (Estimate (Some d))
        | None => Raise IndexError
        end
    | None => Ok NoEstimate
    end.

(** [[l for l in self.dataset.levels if l.energy.offset == self.energy.offset]]. *)
Definition candidates (ds : Dataset) (gf : GammaFields)
  : list (nat * LevelRecord) :=
  filter (fun il => option_ascii_eqb (offset (l_energy (snd il)))
                                     (offset (g_energy gf)))
         (indexed (levels ds)).

(** [lambda x: abs(x.energy.val - dest_energy)]. *)
Definition dest_key (dest_energy : option float) (il : nat * LevelRecord)
  : result float :=
  match val (l_energy (snd il)), dest_energy with
  | Some e, Some d => Ok (Float.abs (e - d)%F)
  | _, _ => Raise TypeError
  end.

(** [_determine_dest_level] of the gamma that will stand at index [self_id]
    of the records; it starts with [dest_level = None].  The result is the
    dataset with the chosen level's [populating] extended, and the gamma's
    [dest_level]. *)
Definition _determine_dest_level (ds : Dataset) (self_id : nat) (p : dict)
  (gf : GammaFields) : result (Dataset * option nat) :=
  est <- estimate_dest_energy ds p gf ;;
  match est with
  | NoEstimate => Ok (ds, None)
  | Estimate dest_energy =>
      match py_min (dest_key dest_energy) (candidates ds gf) with
      | Ok il => Ok (add_populating ds (fst il) self_id, Some (fst il))
      | Raise ValueError => Ok (ds, None)
      | Raise e => Raise e
      end
  end.

(** [for k, v in self.prop.items(): if k[0:2] == "BE" or k[0:2] == "BM": ...]. *)
Fixpoint gamma_attr (p : dict) : result (list (string * Quantity)) :=
  match p with
  | [] => Ok []
  | (k, v) :: r =>
      if String.eqb (Py.slice k 0 2) "BE" || String.eqb (Py.slice k 0 2) "BM"
      then
        q <- Quantity_new U v None false ;;
        rest <- gamma_attr r ;;
        Ok ((k, q) :: rest)
      else gamma_attr r
  end.

(** The part of [GammaRecord.__init__] between [add_decay] and
    [_determine_dest_level]: the fixed fields, the continuation properties
    and the quantities. *)
Definition gamma_fields (record : list string) (orig : option nat)
  : result (dict * GammaFields) :=
  r0 <- seq_item0 (PyList record) ;;
  let p := set_all []
             [("E", field r0 9 19); ("DE", field r0 19 21);
              ("RI", field r0 21 29); ("DRI", field r0 29 31);
              ("M", field r0 31 41); ("MR", field r0 41 49);
              ("DMR", field r0 49 55); ("CC", field r0 55 62);
              ("DCC", field r0 62 64); ("TI", field r0 64 74);
              ("DTI", field r0 74 76)] in
  c <- field_at r0 76 ;;
  let p := dict_set p "C" c in
  coin <- field_at r0 78 ;;
  let p := dict_set p "COIN" coin in
  q <- field_at r0 79 ;;
  let p := dict_set p "Q" q in
  p <- load_prop p (tl record) ;;
  e <- getitem p "E" ;; de <- getitem p "DE" ;;
  energy <- Quantity_new U e (Some de) true ;;
  ri <- getitem p "RI" ;; dri <- getitem p "DRI" ;;
  rel <- Quantity_new U ri (Some dri) true ;;
  m <- getitem p "M" ;;
  mr <- getitem p "MR" ;; dmr <- getitem p "DMR" ;;
  mix <- Quantity_new U mr (Some dmr) true ;;
  cc <- getitem p "CC" ;; dcc <- getitem p "DCC" ;;
  conv <- Quantity_new U cc (Some dcc) true ;;
  ti <- getitem p "TI" ;; dti <- getitem p "DTI" ;;
  tot <- Quantity_new U ti (Some dti) true ;;
  qq <- getitem p "Q" ;;
  at_ <- gamma_attr p ;;
  Ok (p, {| orig_level := orig; g_energy := energy; rel_intensity := rel;
            multipolarity := m; mixing_ratio := mix;
            conversion_coeff := conv; rel_tot_trans_intensity := tot;
            g_questionable := String.eqb qq "?";
            g_expected := String.eqb qq "S"; attr := at_ |}).

(** [GammaRecord.__init__]: the gamma joins the [decays] of its originating
    level first, is filled in next, and resolves its destination last. *)
Definition GammaRecord_init (ds : Dataset) (record : list string)
  (cmts : list (list string)) (xr : list string) (orig : option nat)
  : result (Dataset * DecayRecord) :=
  let self_id := length (records ds) in
  let base := Record_init (self_ref ds) (Some cmts) (Some xr) in
  let ds1 := match orig with
             | Some lvl => add_decay ds lvl self_id
             | None => ds
             end in
  '(p, gf) <- gamma_fields record orig ;;
  '(ds2, dest) <- _determine_dest_level ds1 self_id p gf ;;
  Ok (ds2, decay_with (with_prop base p) dest (Gamma gf)).

End Resolution.

(** ** Record-type resolution *)

Inductive RecordType : Type :=
| TCrossReference | TQValue | TLevel | TBeta | TEC | TAlpha | TGamma
| TParticle.

Definition get_record_type (record : list string) : result RecordType :=
  r0 <- seq_item0 (PyList record) ;;
  c7 <- Py.index r0 7 ;;
  if Ascii.eqb c7 "X" then Ok TCrossReference
  else if Ascii.eqb c7 "Q" then Ok TQValue
  else if Ascii.eqb c7 "L" then Ok TLevel
  else if Ascii.eqb c7 "B" then Ok TBeta
  else if Ascii.eqb c7 "E" then Ok TEC
  else if Ascii.eqb c7 "A" then Ok TAlpha
  else if Ascii.eqb c7 "G" then Ok TGamma
  else if Py.mem_char c7 " D" then
    c8 <- Py.index r0 8 ;;
    if Py.mem_char c8 "PAN" then Ok TParticle
    else Raise NotImplementedError
  else Raise NotImplementedError.

(** ** The dataset parser *)

(** The local variables of [_parse_dataset], with the dataset they fill. *)
Record pstate : Type := mkPstate {
  st_ds : Dataset;
  st_comments : list (list string);
  st_record : list string;
  st_xref : list string;
  st_level : option nat;
  st_history : string;
  st_header : bool
}.

Definition with_ds (st : pstate) (ds : Dataset) : pstate :=
  {| st_ds := ds; st_comments := st_comments st; st_record := st_record st;
     st_xref := st_xref st; st_level := st_level st;
     st_history := st_history st; st_header := st_header st |}.

(** The classes of a body line, in the order the [if]/[elif] chain tests
    for them. *)
Inductive LineClass : Type :=
| RecordStart
| XrefContinuation
| PlainContinuation
| CommentStart
| CommentContinuation
| BrokenRecord.

(** [line[7].lower() in "bagel" or (line[7] in " D" and line[8] in "PAN")]. *)
Definition record_signature (line : string) : result bool :=
  c7 <- Py.index line 7 ;;
  if Py.mem_char (Py.lower_char c7) "bagel" then Ok true
  else if Py.mem_char c7 " D" then
    c8 <- Py.index line 8 ;;
    Ok (Py.mem_char c8 "PAN")
  else Ok false.

Definition classify_body (line : string) : result LineClass :=
  sig <- record_signature line ;;
  if sig && String.eqb (Py.slice line 5 7) "  " then Ok RecordStart
  else if String.eqb (Py.slice line 5 7) "X " then Ok XrefContinuation
  else
    c6 <- Py.index line 6 ;;
    if Ascii.eqb c6 " " then Ok PlainContinuation
    else if existsb (String.eqb (Py.lower (Py.slice line 5 7)))
                    [" c"; " d"; " t"]
    then Ok CommentStart
    else if Py.mem_char (Py.lower_char c6) "cdt" then Ok CommentContinuation
    else Ok BrokenRecord.

(** [comments[-1].append(line)]. *)
Fixpoint append_to_last (cs : list (list string)) (line : string)
  : result (list (list string)) :=
  match cs with
  | [] => Raise IndexError
  | [c] => Ok [c ++ [line]]
  | c :: r => r' <- append_to_last r line ;; Ok (c :: r')
  end.

Section Parser.

Variable U : Util.

Definition _add_level (ds : Dataset) (record : list string)
  (cmts : list (list string)) (xr : list string) : result (Dataset * nat) :=
  lvl <- LevelRecord_init U (self_ref ds) record cmts xr ;;
  Ok (set_levels ds (levels ds ++ [lvl]), length (levels ds)).

(** [rec_type(self, record, comments, xref, level)]: the constructors of
    cross-reference, Q-value and level records do not take five arguments. *)
Definition _add_record (ds : Dataset) (record : list string)
  (cmts : list (list string)) (xr : list string) (level : option nat)
  : result Dataset :=
  rec_type <- get_record_type record ;;
  '(ds', rec) <-
    match rec_type with
    | TBeta =>
        r <- BetaRecord_init U (self_ref ds) record cmts xr level ;; Ok (ds, r)
    | TEC =>
        r <- ECRecord_init (self_ref ds) record cmts xr level ;; Ok (ds, r)
    | TAlpha =>
        r <- AlphaRecord_init (self_ref ds) record cmts xr level ;; Ok (ds, r)
    | TParticle =>
        r <- ParticleRecord_init (self_ref ds) record cmts xr level ;;
        Ok (ds, r)
    | TGamma => GammaRecord_init U ds record cmts xr level
    | TCrossReference | TQValue | TLevel => Raise TypeError
    end ;;
  Ok (set_records ds' (records ds' ++ [rec])).

(** [if record: if record[0][7] == "L": level = self._add_level(...)
    else: self._add_record(...)]. *)
Definition close_record (st : pstate) : result pstate :=
  match st_record st with
  | [] => Ok st
  | r0 :: _ =>
      c7 <- Py.index r0 7 ;;
      if Ascii.eqb c7 "L" then
        '(ds', lvl) <- _add_level (st_ds st) (st_record st) (st_comments st)
                                  (st_xref st) ;;
        Ok {| st_ds := ds'; st_comments := st_comments st;
              st_record := st_record st; st_xref := st_xref st;
              st_level := Some lvl; st_history := st_history st;
              st_header := st_header st |}
      else
        ds' <- _add_record (st_ds st) (st_record st) (st_comments st)
                           (st_xref st) (st_level st) ;;
        Ok (with_ds st ds')
  end.

(** The header branch of the loop body, entered while [header] is true. *)
Definition header_step (st : pstate) (line : string) : result pstate :=
  let ds := st_ds st in
  c6 <- Py.index line 6 ;;
  if existsb (Ascii.eqb (Py.upper_char c6)) ["C"; "D"; "T"]%char then
    Ok (with_ds st (add_comment ds line))
  else
    sig <- record_signature line ;;
    c7 <- Py.index line 7 ;;
    if sig then
      Ok {| st_ds := ds; st_comments := st_comments st;
            st_record := st_record st; st_xref := st_xref st;
            st_level := st_level st; st_history := st_history st;
            st_header := false |}
    else if Ascii.eqb c7 "X" then
      x <- CrossReferenceRecord_init (self_ref ds) line ;;
      Ok (with_ds st (add_cross_reference ds x))
    else if Ascii.eqb c7 "P" then
      p <- ParentRecord_init (self_ref ds) (PyStr line) ;;
      Ok (with_ds st (add_parent ds p))
    else if Ascii.eqb c7 "R" then
      Ok (with_ds st (add_reference ds (ReferenceRecord_init (self_ref ds) line)))
    else if Ascii.eqb (Py.upper_char c7) "Q" then
      Ok (with_ds st (add_qrecord ds (QValueRecord_init (self_ref ds) line)))
    else if Ascii.eqb (Py.upper_char c7) "H" then
      Ok {| st_ds := ds; st_comments := st_comments st;
            st_record := st_record st; st_xref := st_xref st;
            st_level := st_level st;
            st_history := st_history st ++ Py.slice line 9 80 ++ " ";
            st_header := st_header st |}
    else Ok st.

(** The [try] block of the loop body, entered once [header] is false. *)
Definition body_step (st : pstate) (line : string) : result pstate :=
  cls <- classify_body line ;;
  match cls with
  | RecordStart =>
      st' <- close_record st ;;
      Ok {| st_ds := st_ds st'; st_comments := []; st_record := [line];
            st_xref := []; st_level := st_level st';
            st_history := st_history st'; st_header := st_header st' |}
  | XrefContinuation =>
      Ok {| st_ds := st_ds st; st_comments := st_comments st;
            st_record := st_record st; st_xref := st_xref st ++ [line];
            st_level := st_level st; st_history := st_history st;
            st_header := st_header st |}
  | PlainContinuation | BrokenRecord =>
      Ok {| st_ds := st_ds st; st_comments := st_comments st;
            st_record := st_record st ++ [line]; st_xref := st_xref st;
            st_level := st_level st; st_history := st_history st;
            st_header := st_header st |}
  | CommentStart =>
      Ok {| st_ds := st_ds st; st_comments := st_comments st ++ [[line]];
            st_record := st_record st; st_xref := st_xref st;
            st_level := st_level st; st_history := st_history st;
            st_header := st_header st |}
  | CommentContinuation =>
      cs <- append_to_last (st_comments st) line ;;
      Ok {| st_ds := st_ds st; st_comments := cs;
            st_record := st_record st; st_xref := st_xref st;
            st_level := st_level st; st_history := st_history st;
            st_header := st_header st |}
  end.

(** One turn of [for line in self.raw[:-1]]. *)
Definition parse_line (st : pstate) (line : string) : result pstate :=
  st1 <- (if st_header st then header_step st line else Ok st) ;;
  if st_header st1 then Ok st1 else body_step st1 line.

Fixpoint parse_lines (st : pstate) (lines : list string) : result pstate :=
  match lines with
  | [] => Ok st
  | line :: rest => st' <- parse_line st line ;; parse_lines st' rest
  end.

(** [for entry in history.split("$")[:-1]]: an entry that does not unpack
    into [k, v] raises [ValueError], which is passed over. *)
Definition parse_history (h : dict) (history_text : string) : dict :=
  fold_left
    (fun d entry =>
       match Py.split_max "=" 1 entry with
       | [k; v] => dict_set d (Py.strip k) (Py.strip v)
       | _ => d
       end)
    (Py.list_drop_last (Py.split "$" history_text)) h.

Definition _parse_dataset (ds : Dataset) : result Dataset :=
  let st0 := {| st_ds := ds; st_comments := []; st_record := [];
                st_xref := []; st_level := None; st_history := "";
                st_header := true |} in
  st <- parse_lines st0 (Py.list_drop_last (raw ds)) ;;
  st' <- close_record st ;;
  let ds' := st_ds st' in
  Ok (set_history ds' (parse_history (history ds') (st_history st'))).

(** [Dataset.__init__(ensdf, dataset_plain)] for the dataset object [self]. *)
Definition Dataset_init (self : DatasetRef) (dataset_plain : string)
  : result Dataset :=
  match Py.split (ascii_of_nat 10) dataset_plain with
  | [] => Raise ValueError
  | hd :: rw =>
      _parse_dataset
        {| self_ref := self; header := hd; raw := rw;
           nucid := field hd 0 5; dataset_id := field hd 9 39;
           dataset_ref := field hd 39 65; publication := field hd 65 74;
           date_text := field hd 74 80;
           records := []; levels := []; history := []; qrecords := [];
           ds_comments := []; parents := []; references := [];
           cross_references := [] |}
  end.

End Parser.

(** ** The records of a dataset *)

Inductive AnyRecord : Type :=
| ALevel (l : LevelRecord)
| ADecay (d : DecayRecord)
| AParent (p : RecordBase)
| AQValue (q : QValueRecord)
| ACrossReference (x : CrossReferenceRecord)
| AReference (r : ReferenceRecord)
| AGeneralComment (c : GeneralCommentRecord).

(** [record.dataset]: the attribute exists on the objects whose constructor
    assigned it. *)
Definition get_dataset (r : AnyRecord) : result DatasetRef :=
  match r with
  | ALevel l => Ok (dataset (l_base l))
  | ADecay d => Ok (dataset (d_base d))
  | AParent p => Ok (dataset p)
  | AQValue _ => Raise AttributeError
  | ACrossReference x => Ok (x_dataset x)
  | AReference r => Ok (r_dataset r)
  | AGeneralComment c => Ok (gc_dataset c)
  end.

(** Every record object a dataset holds, the comments attached to its
    records included. *)
Definition produced_records (ds : Dataset) : list AnyRecord :=
  map ALevel (levels ds)
  ++ flat_map (fun l => map AGeneralComment (comments (l_base l))) (levels ds)
  ++ map ADecay (records ds)
  ++ flat_map (fun d => map AGeneralComment (comments (d_base d))) (records ds)
  ++ map AParent (parents ds)
  ++ map AQValue (qrecords ds)
  ++ map ACrossReference (cross_references ds)
  ++ map AReference (references ds).

(** ** The collaborators, from their description

    Concrete datasets need a concrete [Util]. *)

Module SpecUtil.

Definition is_digit (c : ascii) : bool :=
  let n := nat_of_ascii c in (48 <=? n) && (n <=? 57).

Definition is_letter (c : ascii) : bool :=
  let n := nat_of_ascii (Py.upper_char c) in (65 <=? n) && (n <=? 90).

(** The leading digits of a string, and what follows them. *)
Fixpoint span_digits (s : string) : string * string :=
  match s with
  | "" => ("", "")
  | String c r =>
      if is_digit c then let '(d, t) := span_digits r in (String c d, t)
      else ("", s)
  end.

Fixpoint digits_value (acc : Z) (s : string) : Z :=
  match s with
  | "" => acc
  | String c r => digits_value (10 * acc + Z.of_nat (nat_of_ascii c - 48)) r
  end.

Definition take_sign (s : string) : bool * string :=
  match s with
  | String "-" r => (true, r)
  | String "+" r => (false, r)
  | _ => (false, s)
  end.

(** A decimal numeral: sign, digits with an optional point, optional
    exponent; [None] when the text is not one.  The number is the double
    nearest to the numeral. *)
Definition parse_number (s : string) : option float :=
  let '(neg, s1) := take_sign s in
  let '(ip, s2) := span_digits s1 in
  let '(fp, s3) := match s2 with
                   | String "." r => span_digits r
                   | _ => ("", s2)
                   end in
  if String.eqb (ip ++ fp) "" then None
  else
    let mant := digits_value 0 (ip ++ fp) in
    let scale := (- Z.of_nat (String.length fp))%Z in
    match s3 with
    | "" => Some (Float.decimal neg mant scale)
    | String e r =>
        if Ascii.eqb (Py.upper_char e) "E" then
          let '(eneg, r1) := take_sign r in
          let '(ed, r2) := span_digits r1 in
          if String.eqb ed "" || negb (String.eqb r2 "") then None
          else
            let ev := digits_value 0 ed in
            Some (Float.decimal neg mant
                    (scale + (if eneg then - ev else ev))%Z)
        else None
    end.

(** [s] without the first occurrence of [sub]. *)
Fixpoint remove_first (sub s : string) : string :=
  if prefix sub s then Py.slice_from s (String.length sub)
  else match s with
       | "" => ""
       | String c r => String c (remove_first sub r)
       end.

Definition coded_qualifiers : list (string * Qualifier) :=
  [("AP", Approximately); ("CA", Calculated); ("SY", Systematics);
   ("GT", GreaterThan); ("LT", LessThan); ("GE", GreaterThan);
   ("LE", LessThan)].

Fixpoint find_code (codes : list (string * Qualifier)) (v : string)
  : option (string * Qualifier) :=
  match codes with
  | [] => None
  | (code, q) :: rest =>
      if Py.contains code v then Some (code, q) else find_code rest v
  end.

(** The qualifier of a value and the text that remains. *)
Definition split_qualifier (v : string) : Qualifier * string :=
  match v with
  | String "<" r => (LessThan, Py.strip r)
  | String ">" r => (GreaterThan, Py.strip r)
  | _ =>
      match find_code coded_qualifiers v with
      | Some (code, q) => (q, Py.strip (remove_first code v))
      | None => (Exact, v)
      end
  end.

(** The offset tag of a value and the numeric text before it. *)
Definition split_offset (v : string) : option ascii * string :=
  match Py.last_char v with
  | Ok c =>
      if is_letter c then
        let body := Py.strip (Py.drop_last v) in
        match Py.last_char body with
        | Ok "+"%char => (Some c, Py.strip (Py.drop_last body))
        | _ => (Some c, body)
        end
      else (None, v)
  | Raise _ => (None, v)
  end.

(** Modelled from the spec: [util.Quantity] is not in [core.py].  The value
    is stripped; an empty value has no number and an unspecified qualifier;
    a leading [<] or [>] or a coded qualifier sets the qualifier; a final
    letter is the offset tag; what remains must be a number, or the
    construction fails.  The uncertainty is kept as it is given. *)
Definition Quantity_new (v : string) (unc : option string) (unit : bool)
  : result Quantity :=
  let v := Py.strip v in
  if String.eqb v "" then
    Ok {| val := None; qualifier := Unspecified; pm := unc; offset := None;
          has_unit := unit |}
  else
    let '(q, v1) := split_qualifier v in
    let '(off, v2) := split_offset v1 in
    match parse_number v2 with
    | Some x =>
        Ok {| val := Some x; qualifier := q; pm := unc; offset := off;
              has_unit := unit |}
    | None => Raise ValueError
    end.

(** Modelled from the spec: [util.az_from_nucid] is not in [core.py].  The
    mass number is the decimal number a nuclide id starts with. *)
Definition az_from_nucid (nucid : string) : result Z :=
  let '(d, _) := span_digits nucid in
  if String.eqb d "" then Raise ValueError else Ok (digits_value 0 d).

(** The atomic mass constant energy equivalent in MeV (CODATA 2018). *)
Definition amu : float := Float.decimal false 93149410242 (-8).

Definition util : Util :=
  mkUtil Quantity_new az_from_nucid amu.

End SpecUtil.

(** ** Concrete datasets *)

Module Fixture.

Definition nl : string := String (ascii_of_nat 10) "".

Fixpoint blanks (n : nat) : string :=
  match n with
  | O => ""
  | S n' => String " " (blanks n')
  end.

(** A card image: the text, filled with blanks to 80 columns. *)
Definition card (s : string) : string := s ++ blanks (80 - String.length s).

Definition header_card : string := card " 60NI    ADOPTED LEVELS, GAMMAS".
Definition level_0 : string := card " 60NI  L 0".
Definition level_1000 : string := card " 60NI  L 1000".
Definition level_0_X : string := card " 60NI  L 0+X".
Definition gamma_1000 : string := card " 60NI  G 1000".
Definition gamma_near_1000 : string := card " 60NI  G 999.96".
Definition gamma_blank : string := card " 60NI  G".
Definition gamma_cont_AP : string := card " 60NI 2G BE2W AP 12$FL=0".
Definition parent_card : string :=
  card " 60CO  P 0.0         5+                1925.28 D 14             2822.81   21".
Definition qvalue_card : string :=
  card " 60NI  Q -6128.0   1611387.735 9532.4  5 -6291.6 15    2021WA16".
Definition history_open : string := card " 60NI  H TYP=B+$MOM=GS".
Definition history_closed : string := card " 60NI  H TYP=B+$MOM=GS$".

(** Lines joined by newlines, each followed by one. *)
Fixpoint unlines (ls : list string) : string :=
  match ls with
  | [] => ""
  | l :: r => l ++ nl ++ unlines r
  end.

(** Lines joined by newlines, with none after the last. *)
Fixpoint join_lines (ls : list string) : string :=
  match ls with
  | [] => ""
  | [l] => l
  | l :: r => l ++ nl ++ join_lines r
  end.

Definition parse (text : string) : result Dataset :=
  Dataset_init SpecUtil.util 1 text.

Definition empty_dataset : Dataset :=
  {| self_ref := 1; header := ""; raw := []; nucid := ""; dataset_id := "";
     dataset_ref := ""; publication := ""; date_text := ""; records := [];
     levels := []; history := []; qrecords := []; ds_comments := [];
     parents := []; references := []; cross_references := [] |}.

Definition parsed (text : string) : Dataset :=
  match parse text with
  | Ok ds => ds
  | Raise _ => empty_dataset
  end.

Definition blank_quantity : Quantity :=
  {| val := None; qualifier := Unspecified; pm := None; offset := None;
     has_unit := true |}.

Definition blank_gamma : GammaFields :=
  {| orig_level := None; g_energy := blank_quantity;
     rel_intensity := blank_quantity; multipolarity := "";
     mixing_ratio := blank_quantity; conversion_coeff := blank_quantity;
     rel_tot_trans_intensity := blank_quantity; g_questionable := false;
     g_expected := false; attr := [] |}.

(** The properties and quantities of a gamma record read from [record]. *)
Definition gamma_of (record : list string) (orig : option nat)
  : dict * GammaFields :=
  match gamma_fields SpecUtil.util record orig with
  | Ok pg => pg
  | Raise _ => ([], blank_gamma)
  end.

(** Levels at 0 and at 1000 keV. *)
Definition two_levels : Dataset :=
  parsed (unlines [header_card; level_0; level_1000]).

(** One level, at 0+X. *)
Definition offset_level : Dataset :=
  parsed (unlines [header_card; level_0_X]).

(** One level at 0 keV. *)
Definition ground_level : Dataset :=
  parsed (unlines [header_card; level_0]).

(** The dataset of two levels once a gamma that will be record 0 has joined
    the [decays] of the level at 1000 keV, and that gamma. *)
Definition two_levels_decaying : Dataset := add_decay two_levels 1 0.

Definition near_gamma : dict * GammaFields :=
  gamma_of [gamma_near_1000] (Some 1).

(** The level at 0+X once a gamma has joined its [decays], and a gamma of
    1000 keV from it. *)
Definition offset_level_decaying : Dataset := add_decay offset_level 0 0.

Definition offset_gamma : dict * GammaFields :=
  gamma_of [gamma_1000] (Some 0).

(** A gamma of 1000 keV from the only level, at 0 keV. *)
Definition ground_gamma : dict * GammaFields :=
  gamma_of [gamma_1000] (Some 0).

Definition estimate_of (ds : Dataset) (pg : dict * GammaFields) : float :=
  match estimate_dest_energy SpecUtil.util ds (fst pg) (snd pg) with
  | Ok (Estimate (Some d)) => d
  | _ => Float.zero
  end.





(** A gamma without an energy, from the only level. *)
Definition energyless_gamma : dict * GammaFields :=
  gamma_of [gamma_blank] (Some 0).


(** The energies [1000.0] and the mass number [60.0]. *)
Definition keV_1000 : float := Float.decimal false 1000 0.
Definition mass_60 : float := Float.decimal false 60 0.

End Fixture.

(** ** Reference values used in the statements *)




(** The dataset as [_determine_dest_level] finds it: the gamma under
    construction, which will be record number [length (records ds)], has
    already joined the [decays] of its originating level. *)
Definition joined_decays (ds : Dataset) (orig : option nat) : Dataset :=
  match orig with
  | Some lvl => add_decay ds lvl (length (records ds))
  | None => ds
  end.

(** A record base refers to the dataset [self], and so do its comments. *)
Definition base_linked (self : DatasetRef) (b : RecordBase) : Prop :=
  dataset b = self /\ Forall (fun c => gc_dataset c = self) (comments b).

(** Every record of [ds] that has a [dataset] attribute refers to [self]. *)
Definition linked (self : DatasetRef) (ds : Dataset) : Prop :=
  self_ref ds = self
  /\ Forall (fun l => base_linked self (l_base l)) (levels ds)
  /\ Forall (fun d => base_linked self (d_base d)) (records ds)
  /\ Forall (base_linked self) (parents ds)
  /\ Forall (fun x => x_dataset x = self) (cross_references ds)
  /\ Forall (fun r => r_dataset r = self) (references ds).

(** What the header state collects: the comment lines and the parent,
    reference, Q-value and cross-reference records. *)
Definition header_part (ds : Dataset)
  : list string * list RecordBase * list ReferenceRecord
    * list QValueRecord * list CrossReferenceRecord :=
  (ds_comments ds, parents ds, references ds, qrecords ds,
   cross_references ds).

(** More cards, and parser states to run them from. *)
Module Cards.

Definition beta_1000 : string := Fixture.card " 60NI  B 1000".
Definition gamma_lower : string := Fixture.card " 60NI  g 1000".
Definition proton_delayed : string := Fixture.card " 60NI  DP 1000".
Definition level_meta : string :=
  Fixture.card
    " 60NI  L 58.59                                                               M1".

(** The state of the loop before its first line. *)
Definition start (ds : Dataset) : pstate :=
  {| st_ds := ds; st_comments := []; st_record := []; st_xref := [];
     st_level := None; st_history := ""; st_header := true |}.

(** The body state with [record] pending. *)
Definition pending (ds : Dataset) (record : list string) : pstate :=
  {| st_ds := ds; st_comments := []; st_record := record; st_xref := [];
     st_level := None; st_history := ""; st_header := false |}.

End Cards.

(** ** The level graph *)

(** [o] is the level at index [j]. *)
Definition is_level (o : option nat) (j : nat) : bool :=
  match o with
  | Some i => Nat.eqb i j
  | None => false
  end.

Definition update_opt {A : Type} (o : option nat) (f : A -> A) (l : list A)
  : list A :=
  match o with
  | Some i => update_nth i f l
  | None => l
  end.

(** The levels once the gamma [id] has joined the [decays] of [orig] and the
    [populating] of [dest]. *)
Definition link_gamma (id : nat) (orig dest : option nat)
  (ls : list LevelRecord) : list LevelRecord :=
  update_opt dest (level_add_populating id)
    (update_opt orig (level_add_decay id) ls).

(** The record at index [id] is the gamma [g], with the fields [gf]. *)
Definition gamma_at (ds : Dataset) (id : nat) (g : DecayRecord)
  (gf : GammaFields) : Prop :=
  nth_error (records ds) id = Some g /\ d_kind g = Gamma gf.

(** The links between levels and gammas agree in both directions: a level's
    [decays] are the gammas that have it as [orig_level], its [populating]
    the gammas that have it as [dest_level], and every [dest_level] is a
    level of the dataset. *)
Definition links_consistent (ds : Dataset) : Prop :=
  (forall i l id,
      nth_error (levels ds) i = Some l -> In id (decays l) ->
      exists g gf, gamma_at ds id g gf /\ orig_level gf = Some i)
  /\ (forall i l id,
        nth_error (levels ds) i = Some l -> In id (populating l) ->
        exists g gf, gamma_at ds id g gf /\ dest_level g = Some i)
  /\ (forall id g gf i,
        gamma_at ds id g gf -> orig_level gf = Some i ->
        exists l, nth_error (levels ds) i = Some l /\ In id (decays l))
  /\ (forall id g gf i,
        gamma_at ds id g gf -> dest_level g = Some i ->
        exists l, nth_error (levels ds) i = Some l /\ In id (populating l))
  /\ (forall id g i,
        nth_error (records ds) id = Some g -> dest_level g = Some i ->
        i < length (levels ds)).

(** The current level of the loop is a level of the dataset. *)
Definition level_in_range (st : pstate) : Prop :=
  forall i, st_level st = Some i -> i < length (levels (st_ds st)).

(** The lists of the level at [j] before and after a gamma is linked. *)
Definition linked_lists (id : nat) (orig dest : option nat) (j : nat)
  (l l' : LevelRecord) : Prop :=
  decays l' = decays l ++ (if is_level orig j then [id] else [])
  /\ populating l' = populating l ++ (if is_level dest j then [id] else []).

(** ** [Nucleus.get_isomers] *)

(** The levels the generator yields, by index, for the dataset held in
    [adopted_levels]: [levels[0]] raises [IndexError] on a dataset without
    levels before anything is yielded; a level object is always true; the
    loop over [levels[1:]] yields the levels whose [metastable] is true. *)
Definition get_isomers (adopted_levels : Dataset) : result (list nat) :=
  match levels adopted_levels with
  | [] => Raise IndexError
  | _ :: rest =>
      Ok (0 :: map fst (filter (fun il => metastable (snd il))
                          (combine (seq 1 (length rest)) rest)))
  end.

(** ** Shapes of continuation entries *)

(** Every character of [s] satisfies [f]. *)
Fixpoint all_chars (f : ascii -> bool) (s : string) : bool :=
  match s with
  | "" => true
  | String c r => f c && all_chars f r
  end.

(** Whitespace, or the separator of entries. *)
Definition blank_or_dollar (c : ascii) : bool :=
  Py.is_space c || Ascii.eqb c "$".

(** Neither whitespace nor the separator of entries. *)
Definition solid (c : ascii) : bool :=
  negb (Py.is_space c) && negb (Ascii.eqb c "$").

(** A stripped entry that fits none of the four rules of [load_prop]. *)
Definition fits_no_rule (entry : string) : Prop :=
  entry <> ""
  /\ Py.mem_char "=" entry = false
  /\ first_symb ["<"; ">"]%char entry = None
  /\ first_abbr abbreviations entry = None
  /\ Py.last_char entry <> Ok "?"%char.

(** ** What later lines may change *)

(** Everything of a level but its two lists of gammas. *)
Definition level_core (l : LevelRecord)
  : RecordBase * dict * Quantity * string * Quantity * bool * bool * bool
    * Quantity :=
  (l_base l, attrs l, l_energy l, ang_mom l, half_life l, l_questionable l,
   l_expected l, metastable l, spec_strength l).

(** [l'] is [l] with gammas appended to its lists. *)
Definition level_grows (l l' : LevelRecord) : Prop :=
  level_core l' = level_core l
  /\ (exists d, decays l' = decays l ++ d)
  /\ (exists q, populating l' = populating l ++ q).

(** [ds'] holds the records of [ds] followed by new ones, and the levels
    of [ds], each grown, followed by new ones. *)
Definition dataset_grows (ds ds' : Dataset) : Prop :=
  (exists new, records ds' = records ds ++ new)
  /\ forall i l,
      nth_error (levels ds) i = Some l ->
      exists l', nth_error (levels ds') i = Some l' /\ level_grows l l'.

(** A line that leaves the header state as a cross-reference continuation:
    [X] in column 5, the signature of a level in column 7. *)
Definition xref_then_level : string := Fixture.card " 60NIX L 0".

(** * Properties *)

(** ** Generic facts about the error monad and the string primitives *)

Lemma bind_ok {A B : Type} (m : result A) (k : A -> result B) (b : B) :
  bind m k = Ok b -> exists a, m = Ok a /\ k a = Ok b.
Proof.
  destruct m as [a | e]; simpl; intros H.
  - exists a; split; [reflexivity | exact H].
  - discriminate H.
Qed.

Lemma index_get (s : string) (i : nat) (c : ascii) :
  String.get i s = Some c -> Py.index s i = Ok c.
Proof. unfold Py.index; intros ->; reflexivity. Qed.

(** A line of 80 columns has nine leading columns. *)
Lemma nine_columns (l : string) :
  String.length l = 80 ->
  exists a0 a1 a2 a3 a4 a5 a6 a7 a8 r,
    l = String a0 (String a1 (String a2 (String a3 (String a4
          (String a5 (String a6 (String a7 (String a8 r)))))))).
Proof.
  intros H.
  do 9 (destruct l as [| ? l]; [discriminate H |]; simpl in H;
        apply Nat.succ_inj in H).
  repeat eexists.
Qed.

(** ** The body-state classifier reads columns 5 to 8 *)

(** What [classify_body] computes, as a function of the four columns it
    reads. *)
Lemma classify_body_nine (a0 a1 a2 a3 a4 a5 a6 a7 a8 : ascii) (r : string)
  (b0 b1 b2 b3 b4 : ascii) (r' : string) :
  classify_body (String a0 (String a1 (String a2 (String a3 (String a4
      (String a5 (String a6 (String a7 (String a8 r)))))))))
  = classify_body (String b0 (String b1 (String b2 (String b3 (String b4
      (String a5 (String a6 (String a7 (String a8 r'))))))))).
Proof. reflexivity. Qed.

Lemma classify_body_total (l : string) :
  String.length l = 80 -> exists c, classify_body l = Ok c.
Proof.
  intros H.
  destruct (nine_columns l H)
    as (a0 & a1 & a2 & a3 & a4 & a5 & a6 & a7 & a8 & r & ->).
  unfold classify_body, record_signature, Py.index; simpl String.get.
  cbn [bind].
  destruct (Py.mem_char (Py.lower_char a7) "bagel"); cbn [bind].
  - destruct (true && _)%bool; [eexists; reflexivity |].
    destruct (String.eqb _ "X "); [eexists; reflexivity |].
    destruct (Ascii.eqb a6 " "); [eexists; reflexivity |].
    destruct (existsb _ _); [eexists; reflexivity |].
    destruct (Py.mem_char _ "cdt"); eexists; reflexivity.
  - destruct (Py.mem_char a7 " D"); cbn [bind].
    + destruct (_ && _)%bool; [eexists; reflexivity |].
      destruct (String.eqb _ "X "); [eexists; reflexivity |].
      destruct (Ascii.eqb a6 " "); [eexists; reflexivity |].
      destruct (existsb _ _); [eexists; reflexivity |].
      destruct (Py.mem_char _ "cdt"); eexists; reflexivity.
    + destruct (_ && _)%bool; [eexists; reflexivity |].
      destruct (String.eqb _ "X "); [eexists; reflexivity |].
      destruct (Ascii.eqb a6 " "); [eexists; reflexivity |].
      destruct (existsb _ _); [eexists; reflexivity |].
      destruct (Py.mem_char _ "cdt"); eexists; reflexivity.
Qed.

(** C8. Two body lines of 80 columns that agree on columns 5 to 8 (so, in
    particular, two lines identical in columns 0 to 8) get the same
    classification from the body-state classifier, one of its six classes,
    whatever stands in columns 9 to 79 (and in columns 0 to 4). *)
Theorem classify_body_columns_5_8 (l1 l2 : string) :
  String.length l1 = 80 ->
  String.length l2 = 80 ->
  (forall i, 5 <= i <= 8 -> String.get i l1 = String.get i l2) ->
  classify_body l1 = classify_body l2
  /\ exists c : LineClass, classify_body l1 = Ok c.
Proof.
  intros H1 H2 Hcols.
  split; [| apply classify_body_total; exact H1].
  destruct (nine_columns l1 H1)
    as (a0 & a1 & a2 & a3 & a4 & a5 & a6 & a7 & a8 & r & ->).
  destruct (nine_columns l2 H2)
    as (b0 & b1 & b2 & b3 & b4 & b5 & b6 & b7 & b8 & r' & ->).
  assert (E5 := Hcols 5 ltac:(lia)).
  assert (E6 := Hcols 6 ltac:(lia)).
  assert (E7 := Hcols 7 ltac:(lia)).
  assert (E8 := Hcols 8 ltac:(lia)).
  simpl in E5, E6, E7, E8.
  injection E5 as <-. injection E6 as <-.
  injection E7 as <-. injection E8 as <-.
  apply classify_body_nine.
Qed.

Lemma classify_body_columns_5_8_witness :
  classify_body Fixture.level_0 = classify_body Fixture.level_1000
  /\ exists c : LineClass, classify_body Fixture.level_0 = Ok c.
Proof.
  apply (classify_body_columns_5_8 Fixture.level_0 Fixture.level_1000).
  - reflexivity.
  - reflexivity.
  - intros i Hi.
    do 9 (destruct i as [| i]; [try reflexivity; lia |]).
    lia.
Defined.

(** ** Parent records built from a single line *)





(** ** Lists with positions, updates in place *)

Lemma In_combine_seq {A : Type} (l : list A) (s i : nat) (x : A) :
  In (i, x) (combine (seq s (length l)) l)
  <-> s <= i /\ nth_error l (i - s) = Some x.
Proof.
  revert s; induction l as [| a l IH]; intros s; simpl.
  - split; [intros [] | intros [_ H]].
    destruct (i - s); discriminate H.
  - rewrite IH. split.
    + intros [H | [Hle Hn]].
      * injection H as <- <-. rewrite Nat.sub_diag. split; [lia | reflexivity].
      * split; [lia |].
        replace (i - s) with (S (i - S s)) by lia. exact Hn.
    + intros [Hle Hn].
      destruct (i - s) as [| k] eqn:E.
      * left. injection Hn as <-. f_equal. lia.
      * right. split; [lia |].
        replace (i - S s) with k by lia. exact Hn.
Qed.

Lemma In_indexed {A : Type} (l : list A) (i : nat) (x : A) :
  In (i, x) (indexed l) <-> nth_error l i = Some x.
Proof.
  unfold indexed. rewrite In_combine_seq, Nat.sub_0_r.
  split; [intros [_ H]; exact H | intros H; split; [lia | exact H]].
Qed.

Lemma nth_error_update_nth_same {A : Type} (f : A -> A) (l : list A) (i : nat) :
  nth_error (update_nth i f l) i = option_map f (nth_error l i).
Proof.
  revert i; induction l as [| a l IH]; intros [| i]; simpl; auto.
Qed.

Lemma nth_error_update_nth_other {A : Type} (f : A -> A) (l : list A)
  (i j : nat) :
  i <> j -> nth_error (update_nth i f l) j = nth_error l j.
Proof.
  revert i j; induction l as [| a l IH]; intros [| i] [| j] H; simpl; auto.
  contradiction H; reflexivity.
Qed.

Lemma map_update_nth {A B : Type} (g : A -> B) (f : A -> A) (l : list A)
  (i : nat) :
  (forall a, g (f a) = g a) -> map g (update_nth i f l) = map g l.
Proof.
  intros H. revert i; induction l as [| a l IH]; intros [| i]; simpl;
    try rewrite H; try rewrite IH; reflexivity.
Qed.

Lemma option_ascii_eqb_eq (a b : option ascii) :
  option_ascii_eqb a b = true <-> a = b.
Proof.
  destruct a as [x |], b as [y |]; simpl.
  - rewrite Ascii.eqb_eq. split; [intros -> | intros [= ->]]; reflexivity.
  - split; discriminate.
  - split; discriminate.
  - split; reflexivity.
Qed.

(** ** The order of floats *)












(** ** [min] with a key *)

Section MinByKey.

Context {A : Type}.
Variable key : A -> result float.



Lemma py_min_nil : py_min key [] = Raise ValueError.
Proof. reflexivity. Qed.

End MinByKey.

(** ** Destination resolution *)

(** The candidates are the levels whose offset tag is the gamma's. *)
Lemma candidates_spec (ds : Dataset) (gf : GammaFields) (j : nat)
  (lj : LevelRecord) :
  In (j, lj) (candidates ds gf)
  <-> nth_error (levels ds) j = Some lj
      /\ offset (l_energy lj) = offset (g_energy gf).
Proof.
  unfold candidates.
  rewrite filter_In, In_indexed. simpl.
  rewrite option_ascii_eqb_eq. reflexivity.
Qed.



(** What [_determine_dest_level] can have done when it returns. *)
Lemma determine_dest_level_cases (U : Util) (ds ds' : Dataset) (id : nat)
  (p : dict) (gf : GammaFields) (dest : option nat) :
  _determine_dest_level U ds id p gf = Ok (ds', dest) ->
  (ds' = ds /\ dest = None)
  \/ exists i, ds' = add_populating ds i id /\ dest = Some i.
Proof.
  unfold _determine_dest_level. intros H.
  apply bind_ok in H. destruct H as ([| d] & _ & H).
  - injection H as <- <-. left. split; reflexivity.
  - destruct (py_min (dest_key d) (candidates ds gf)) as [il | e].
    + injection H as <- <-. right. exists (fst il). split; reflexivity.
    + destruct e; try discriminate H.
      injection H as <- <-. left. split; reflexivity.
Qed.




Lemma empty_candidates_resolution (U : Util) (ds : Dataset) (id : nat)
  (p : dict) (gf : GammaFields) (est : estimate) :
  estimate_dest_energy U ds p gf = Ok est ->
  candidates ds gf = [] ->
  _determine_dest_level U ds id p gf = Ok (ds, None).
Proof.
  intros Hest Hc. unfold _determine_dest_level.
  rewrite Hest. cbn [bind].
  destruct est as [| d]; [reflexivity |].
  rewrite Hc, py_min_nil. reflexivity.
Qed.

Lemma populating_joined_decays (ds : Dataset) (orig : option nat) :
  map populating (levels (joined_decays ds orig)) = map populating (levels ds).
Proof.
  destruct orig as [lvl |]; [| reflexivity].
  simpl. apply map_update_nth. reflexivity.
Qed.

(** C4, as amended. When the list of candidates is empty and the step that
    estimates the destination energy ends without raising (it computed an
    estimate, or left through [return]), destination resolution ends
    without raising: [dest_level] stays absent, no [populating] list
    changes, and [_add_record] appends the gamma to the records, so that
    the parse goes on. *)
Theorem empty_candidates_leave_dest_absent (U : Util) (ds : Dataset)
  (record : list string) (cmts : list (list string)) (xr : list string)
  (orig : option nat) (p : dict) (gf : GammaFields) (est : estimate) :
  get_record_type record = Ok TGamma ->
  gamma_fields U record orig = Ok (p, gf) ->
  estimate_dest_energy U (joined_decays ds orig) p gf = Ok est ->
  candidates (joined_decays ds orig) gf = [] ->
  _determine_dest_level U (joined_decays ds orig) (length (records ds)) p gf
    = Ok (joined_decays ds orig, None)
  /\ (exists g,
        _add_record U ds record cmts xr orig
          = Ok (set_records (joined_decays ds orig) (records ds ++ [g]))
        /\ dest_level g = None
        /\ d_kind g = Gamma gf)
  /\ map populating (levels (joined_decays ds orig))
     = map populating (levels ds).
Proof.
  intros Hty Hfields Hest Hc.
  assert (Hdet := empty_candidates_resolution U _ (length (records ds)) p gf
                    est Hest Hc).
  split; [exact Hdet |].
  split; [| apply populating_joined_decays].
  exists (decay_with (with_prop (Record_init (self_ref ds) (Some cmts)
                                   (Some xr)) p) None (Gamma gf)).
  split; [| split; reflexivity].
  unfold _add_record. rewrite Hty. cbn [bind].
  unfold GammaRecord_init. rewrite Hfields. cbn [bind].
  fold (joined_decays ds orig). rewrite Hdet. cbn [bind].
  destruct orig; reflexivity.
Qed.

Lemma empty_candidates_leave_dest_absent_witness :
  _determine_dest_level SpecUtil.util Fixture.offset_level_decaying 0
    (fst Fixture.offset_gamma) (snd Fixture.offset_gamma)
  = Ok (Fixture.offset_level_decaying, None).
Proof.
  apply (empty_candidates_leave_dest_absent SpecUtil.util
           Fixture.offset_level [Fixture.gamma_1000] [] [] (Some 0)
           (fst Fixture.offset_gamma) (snd Fixture.offset_gamma)
           (Estimate (Some (Fixture.estimate_of Fixture.offset_level_decaying
                              Fixture.offset_gamma)))).
  - reflexivity.
  - vm_compute. reflexivity.
  - vm_compute. reflexivity.
  - vm_compute. reflexivity.
Defined.

(** C4, the claim as stated fails: the estimate is computed before the
    candidates are looked for, and it can raise.  A gamma without an energy
    value from the only level, at 0+X, has no candidate (its offset tag is
    absent), yet [energy_gamma * ...] raises [TypeError] on [None], which
    ends resolution and the parse. *)
Lemma empty_candidates_estimate_raises :
  candidates Fixture.offset_level_decaying (snd Fixture.energyless_gamma) = []
  /\ estimate_dest_energy SpecUtil.util Fixture.offset_level_decaying
       (fst Fixture.energyless_gamma) (snd Fixture.energyless_gamma)
     = Raise TypeError
  /\ _determine_dest_level SpecUtil.util Fixture.offset_level_decaying 0
       (fst Fixture.energyless_gamma) (snd Fixture.energyless_gamma)
     = Raise TypeError
  /\ Fixture.parse
       (Fixture.unlines [Fixture.header_card; Fixture.level_0_X;
                         Fixture.gamma_blank]) = Raise TypeError.
Proof.
  split; [vm_compute; reflexivity |].
  split; [vm_compute; reflexivity |].
  split; vm_compute; reflexivity.
Qed.

(** ** The recoil-corrected estimate *)

(** C1, as amended. For a gamma record without an [FL] property whose
    originating level is known, with a gamma energy [eg], a level energy
    [e0], a mass number [A] read from the nuclide id that converts to the
    float [m], and [m * amu] not zero, the estimated destination energy is
    [e0 - Ei] with [Ei = eg * (1 + 2 * (0.001 * eg) / (m * amu))], each
    operation in double precision: the correction term carries a
    factor 2. *)
Theorem recoil_corrected_estimate (U : Util) (ds : Dataset) (p : dict)
  (gf : GammaFields) (lvl : nat) (orig : LevelRecord) (eg e0 : float) (A : Z)
  (m : float) :
  dict_mem p "FL" = false ->
  orig_level gf = Some lvl ->
  nth_error (levels ds) lvl = Some orig ->
  val (g_energy gf) = Some eg ->
  val (l_energy orig) = Some e0 ->
  az_from_nucid U (nucid ds) = Ok A ->
  Float.of_int A = Ok m ->
  Float.eqb (m * amu U)%F Float.zero = false ->
  estimate_dest_energy U ds p gf
  = Ok (Estimate
          (Some (e0 - eg * (Float.one
                            + Float.two * (Float.milli * eg) / (m * amu U)))%F)).
Proof.
  intros Hfl Horig Hnth Heg He0 Hmass Hm Hnz.
  unfold estimate_dest_energy.
  rewrite Hfl, Horig, Hmass. cbn [bind].
  unfold energy_i. rewrite Heg, Hm. cbn [bind]. rewrite Hnz.
  cbn [bind]. rewrite Hnth. unfold py_sub. rewrite He0. reflexivity.
Qed.

Lemma recoil_corrected_estimate_witness :
  estimate_dest_energy SpecUtil.util Fixture.two_levels_decaying
    (fst Fixture.near_gamma) (snd Fixture.near_gamma)
  = Ok (Estimate
          (Some (Fixture.keV_1000
                 - Float.decimal false 99996 (-2)
                   * (Float.one
                      + Float.two
                        * (Float.milli * Float.decimal false 99996 (-2))
                        / (Fixture.mass_60 * amu SpecUtil.util)))%F)).
Proof.
  eapply (recoil_corrected_estimate SpecUtil.util Fixture.two_levels_decaying
            (fst Fixture.near_gamma) (snd Fixture.near_gamma) 1 _
            (Float.decimal false 99996 (-2)) Fixture.keV_1000 60%Z
            Fixture.mass_60).
  - reflexivity.
  - reflexivity.
  - vm_compute. reflexivity.
  - vm_compute. reflexivity.
  - vm_compute. reflexivity.
  - reflexivity.
  - vm_compute. reflexivity.
  - vm_compute. reflexivity.
Defined.

(** C1, the claim as stated fails: for a gamma of 1000 keV from a level at
    0 keV of a nuclide of mass number 60, the estimate the code computes is
    not [0 - 1000 * (1 + 0.001 * 1000 / (60 * amu))]; the two differ by more
    than 0.01 keV, far above the rounding of the operations. *)
Lemma recoil_estimate_without_factor_fails :
  exists d : float,
    estimate_dest_energy SpecUtil.util (joined_decays Fixture.ground_level (Some 0))
      (fst Fixture.ground_gamma) (snd Fixture.ground_gamma)
    = Ok (Estimate (Some d))
    /\ Float.eqb d
         (Float.zero
          - Fixture.keV_1000
            * (Float.one
               + Float.milli * Fixture.keV_1000
                 / (Fixture.mass_60 * SpecUtil.amu)))%F = false
    /\ Float.ltb (Float.decimal false 1 (-2))
         (Float.abs
            (d - (Float.zero
                  - Fixture.keV_1000
                    * (Float.one
                       + Float.milli * Fixture.keV_1000
                         / (Fixture.mass_60 * SpecUtil.amu))))%F) = true
    /\ d = (Float.zero
            - Fixture.keV_1000
              * (Float.one
                 + Float.two * (Float.milli * Fixture.keV_1000)
                   / (Fixture.mass_60 * SpecUtil.amu)))%F.
Proof.
  eexists. split; [vm_compute; reflexivity |].
  split; [vm_compute; reflexivity |].
  split; vm_compute; reflexivity.
Qed.

(** ** A gamma joins the decays of its originating level first *)

Lemma decays_add_populating (ds : Dataset) (i id j : nat) (l : LevelRecord) :
  nth_error (levels ds) j = Some l ->
  exists l', nth_error (levels (add_populating ds i id)) j = Some l'
             /\ decays l' = decays l.
Proof.
  intros H. unfold add_populating. simpl.
  destruct (Nat.eq_dec i j) as [-> | Hne].
  - rewrite nth_error_update_nth_same, H. simpl.
    eexists. split; reflexivity.
  - rewrite nth_error_update_nth_other by exact Hne.
    exists l. split; [exact H | reflexivity].
Qed.

Lemma levels_add_decay (ds : Dataset) (lvl id : nat) (l : LevelRecord) :
  nth_error (levels ds) lvl = Some l ->
  nth_error (levels (add_decay ds lvl id)) lvl = Some (level_add_decay id l).
Proof.
  intros H. unfold add_decay. simpl.
  rewrite nth_error_update_nth_same, H. reflexivity.
Qed.

(** C5, as amended. A gamma constructed with an originating level is
    appended to that level's [decays] before destination resolution runs,
    and is still there when the constructor returns, whatever [dest_level]
    resolution leaves (a dataset with one level at 0+X and a gamma of
    1000 keV from it leaves it absent).  In a dataset with one level at 0
    followed by one gamma from it with E = 1000 and no [FL], that level is
    itself the only candidate: [dest_level] is the level, and its [decays]
    and its [populating] both hold exactly that gamma. *)
Theorem gamma_joins_decays_before_resolution (U : Util) (ds : Dataset)
  (record : list string) (cmts : list (list string)) (xr : list string)
  (lvl : nat) (l0 : LevelRecord) (ds' : Dataset) (g : DecayRecord) :
  nth_error (levels ds) lvl = Some l0 ->
  GammaRecord_init U ds record cmts xr (Some lvl) = Ok (ds', g) ->
  (exists p gf l1,
      gamma_fields U record (Some lvl) = Ok (p, gf)
      /\ nth_error (levels (joined_decays ds (Some lvl))) lvl
         = Some (level_add_decay (length (records ds)) l0)
      /\ _determine_dest_level U (joined_decays ds (Some lvl))
           (length (records ds)) p gf
         = Ok (ds', dest_level g)
      /\ nth_error (levels ds') lvl = Some l1
      /\ decays l1 = decays l0 ++ [length (records ds)])
  /\ (exists dsa,
        Fixture.parse
          (Fixture.unlines [Fixture.header_card; Fixture.level_0_X;
                            Fixture.gamma_1000]) = Ok dsa
        /\ map dest_level (records dsa) = [None]
        /\ map decays (levels dsa) = [[0]]
        /\ map populating (levels dsa) = [[]])
  /\ (exists dsb,
        Fixture.parse
          (Fixture.unlines [Fixture.header_card; Fixture.level_0;
                            Fixture.gamma_1000]) = Ok dsb
        /\ length (records dsb) = 1
        /\ map dest_level (records dsb) = [Some 0]
        /\ map decays (levels dsb) = [[0]]
        /\ map populating (levels dsb) = [[0]]).
Proof.
  intros Hnth Hinit.
  split.
  - unfold GammaRecord_init in Hinit.
    apply bind_ok in Hinit. destruct Hinit as ([p gf] & Hfields & Hinit).
    apply bind_ok in Hinit. destruct Hinit as ([ds2 dest] & Hdet & Hinit).
    injection Hinit as <- <-.
    assert (Hjoin := levels_add_decay ds lvl (length (records ds)) l0 Hnth).
    destruct (determine_dest_level_cases _ _ _ _ _ _ _ Hdet)
      as [[-> ->] | (i & -> & ->)].
    + exists p, gf, (level_add_decay (length (records ds)) l0).
      repeat apply conj; auto.
    + destruct (decays_add_populating (add_decay ds lvl (length (records ds)))
                  i (length (records ds)) lvl _ Hjoin) as (l1 & Hl1 & Hd).
      exists p, gf, l1.
      repeat apply conj; auto.
  - split.
    + eexists. split; [vm_compute; reflexivity |].
      repeat apply conj; reflexivity.
    + eexists. split; [vm_compute; reflexivity |].
      repeat apply conj; reflexivity.
Qed.

(** C5, the scenario as stated fails: in the dataset with one level at 0 and
    one gamma of 1000 keV from it, [dest_level] is not absent. *)
Lemma ground_state_gamma_dest_not_absent :
  exists ds g,
    Fixture.parse
      (Fixture.unlines [Fixture.header_card; Fixture.level_0;
                        Fixture.gamma_1000]) = Ok ds
    /\ records ds = [g]
    /\ dest_level g = Some 0
    /\ dest_level g <> None
    /\ candidates (joined_decays Fixture.ground_level (Some 0))
         (snd Fixture.ground_gamma) <> [].
Proof.
  eexists. eexists. split; [vm_compute; reflexivity |].
  repeat apply conj.
  - reflexivity.
  - reflexivity.
  - discriminate.
  - vm_compute. discriminate.
Qed.

Lemma gamma_joins_decays_before_resolution_witness :
  exists ds' g l1,
    GammaRecord_init SpecUtil.util Fixture.ground_level [Fixture.gamma_1000]
      [] [] (Some 0) = Ok (ds', g)
    /\ nth_error (levels ds') 0 = Some l1
    /\ decays l1 = [0].
Proof.
  destruct (GammaRecord_init SpecUtil.util Fixture.ground_level
              [Fixture.gamma_1000] [] [] (Some 0))
    as [[ds' g] | e] eqn:E; [| vm_compute in E; discriminate E].
  destruct (nth_error (levels Fixture.ground_level) 0)
    as [l0 |] eqn:E0; [| vm_compute in E0; discriminate E0].
  destruct (gamma_joins_decays_before_resolution SpecUtil.util
              Fixture.ground_level [Fixture.gamma_1000] [] [] 0 l0 ds' g
              E0 E)
    as ((p & gf & l1 & _ & _ & _ & H1 & H2) & _).
  exists ds', g, l1.
  split; [reflexivity |].
  split; [exact H1 |].
  rewrite H2. vm_compute in E0. injection E0 as <-. reflexivity.
Defined.

(** ** Splitting a text whose last separator is followed by one more part *)

Section SplitLast.

Variable sep : ascii.

Lemma split_once_none (l : string) :
  Py.mem_char sep l = false -> Py.split_once sep l = None.
Proof.
  induction l as [| c l IH]; simpl; [reflexivity |].
  rewrite Ascii.eqb_sym.
  destruct (Ascii.eqb c sep); simpl; [discriminate |].
  intros H. rewrite (IH H). reflexivity.
Qed.

Lemma split_once_app_none (s l : string) :
  Py.split_once sep s = None ->
  Py.split_once sep (s ++ String sep l)%string = Some (s, l).
Proof.
  induction s as [| c s IH]; simpl.
  - rewrite Ascii.eqb_refl. reflexivity.
  - destruct (Ascii.eqb c sep); [discriminate |].
    destruct (Py.split_once sep s) as [[a b] |]; [discriminate |].
    intros _. rewrite (IH eq_refl). reflexivity.
Qed.

Lemma split_once_app_some (s t a b : string) :
  Py.split_once sep s = Some (a, b) ->
  Py.split_once sep (s ++ t)%string = Some (a, (b ++ t)%string)
  /\ String.length b < String.length s.
Proof.
  revert a b; induction s as [| c s IH]; simpl; intros a b; [discriminate |].
  destruct (Ascii.eqb c sep).
  - intros [= <- <-]. split; [reflexivity | lia].
  - destruct (Py.split_once sep s) as [[a' b'] |]; [| discriminate].
    intros [= <- <-].
    destruct (IH a' b' eq_refl) as [-> Hlen].
    split; [reflexivity | lia].
Qed.

Lemma split_max_no_sep (n : nat) (l : string) :
  Py.mem_char sep l = false -> Py.split_max sep n l = [l].
Proof.
  intros H. destruct n; simpl; [reflexivity |].
  rewrite (split_once_none l H). reflexivity.
Qed.

(** With fuel enough on both sides, a last part [l] that holds no separator
    comes out as the last element. *)
Lemma split_max_app_last (l : string) :
  Py.mem_char sep l = false ->
  forall (n : nat) (s : string) (m : nat),
    String.length s <= n ->
    String.length s < m ->
    Py.split_max sep m (s ++ String sep l)%string = Py.split_max sep n s ++ [l].
Proof.
  intros Hl. induction n as [| n IH]; intros s m Hn Hm.
  - destruct s; [| simpl in Hn; lia].
    destruct m as [| m]; [lia |].
    simpl. rewrite Ascii.eqb_refl.
    rewrite (split_max_no_sep m l Hl). reflexivity.
  - destruct m as [| m]; [lia |].
    simpl. destruct (Py.split_once sep s) as [[a b] |] eqn:E.
    + destruct (split_once_app_some s (String sep l) a b E) as [-> Hlen].
      simpl. f_equal. apply IH; lia.
    + rewrite (split_once_app_none s l E).
      rewrite (split_max_no_sep m l Hl). reflexivity.
Qed.

Lemma length_app_string (s t : string) :
  String.length (s ++ t)%string = String.length s + String.length t.
Proof.
  induction s as [| c s IH]; simpl; [reflexivity | rewrite IH; reflexivity].
Qed.

Lemma split_app_last (s l : string) :
  Py.mem_char sep l = false ->
  Py.split sep (s ++ String sep l)%string = Py.split sep s ++ [l].
Proof.
  intros Hl. unfold Py.split.
  apply split_max_app_last; [exact Hl | lia |].
  rewrite length_app_string. simpl. lia.
Qed.

Lemma split_not_nil (s : string) : Py.split sep s <> [].
Proof.
  unfold Py.split. destruct (String.length s); simpl; [discriminate |].
  destruct (Py.split_once sep s) as [[a b] |]; discriminate.
Qed.

(** [lines[:-1]] of the parts of such a text are the parts of the text
    before its last separator. *)
Lemma drop_last_split_app (s l : string) :
  Py.mem_char sep l = false ->
  Py.list_drop_last (Py.split sep (s ++ String sep l)%string) = Py.split sep s.
Proof.
  intros Hl. rewrite (split_app_last s l Hl).
  unfold Py.list_drop_last. apply removelast_last.
Qed.

End SplitLast.

(** ** The back-reference to the dataset *)

Ltac inv_bind H :=
  repeat (cbv zeta in H; apply bind_ok in H;
          let x := fresh "x" in
          let E := fresh "E" in
          destruct H as (x & E & H)).

Lemma Record_init_linked (self : DatasetRef)
  (cmts : option (list (list string))) (xr : option (list string)) :
  base_linked self (Record_init self cmts xr).
Proof.
  split; [reflexivity |]. simpl.
  destruct cmts as [cs |]; [| constructor].
  induction cs as [| c cs IH]; simpl; constructor; auto.
Qed.

Lemma with_prop_linked (self : DatasetRef) (b : RecordBase) (p : dict) :
  base_linked self b -> base_linked self (with_prop b p).
Proof. intros [H1 H2]. split; assumption. Qed.

Create HintDb linked.
#[local] Hint Resolve Record_init_linked with_prop_linked : linked.

Lemma Forall_update_nth {A : Type} (P : A -> Prop) (f : A -> A) (i : nat)
  (l : list A) :
  (forall a, P a -> P (f a)) -> Forall P l -> Forall P (update_nth i f l).
Proof.
  intros Hf H. revert i.
  induction H as [| a l Ha Hl IH]; intros [| i]; simpl; constructor; auto.
Qed.

Lemma Forall_snoc {A : Type} (P : A -> Prop) (l : list A) (a : A) :
  Forall P l -> P a -> Forall P (l ++ [a]).
Proof.
  intros Hl Ha. apply Forall_app. split; [exact Hl | constructor; auto].
Qed.

Section Linked.

Variable U : Util.
Variable self : DatasetRef.

Lemma LevelRecord_init_linked record cmts xr l :
  LevelRecord_init U self record cmts xr = Ok l -> base_linked self (l_base l).
Proof.
  unfold LevelRecord_init. intros H. inv_bind H.
  injection H as <-. simpl. auto with linked.
Qed.

Lemma BetaRecord_init_linked record cmts xr dest r :
  BetaRecord_init U self record cmts xr dest = Ok r ->
  base_linked self (d_base r).
Proof.
  unfold BetaRecord_init. intros H. inv_bind H.
  injection H as <-. simpl. auto with linked.
Qed.

Lemma ECRecord_init_linked record cmts xr dest r :
  ECRecord_init self record cmts xr dest = Ok r -> base_linked self (d_base r).
Proof.
  unfold ECRecord_init. intros H. inv_bind H.
  injection H as <-. simpl. auto with linked.
Qed.

Lemma AlphaRecord_init_linked record cmts xr dest r :
  AlphaRecord_init self record cmts xr dest = Ok r ->
  base_linked self (d_base r).
Proof.
  unfold AlphaRecord_init. intros H. inv_bind H.
  injection H as <-. simpl. auto with linked.
Qed.

Lemma ParticleRecord_init_linked record cmts xr dest r :
  ParticleRecord_init self record cmts xr dest = Ok r ->
  base_linked self (d_base r).
Proof.
  unfold ParticleRecord_init. intros H. inv_bind H.
  injection H as <-. simpl. auto with linked.
Qed.

Lemma ParentRecord_init_linked record b :
  ParentRecord_init self record = Ok b -> base_linked self b.
Proof.
  unfold ParentRecord_init. intros H. inv_bind H.
  injection H as <-. auto with linked.
Qed.

Lemma linked_set_levels ds ls :
  linked self ds ->
  Forall (fun l => base_linked self (l_base l)) ls ->
  linked self (set_levels ds ls).
Proof.
  intros (H1 & H2 & H3 & H4 & H5 & H6) Hls.
  repeat apply conj; assumption.
Qed.

Lemma linked_add_decay ds lvl id :
  linked self ds -> linked self (add_decay ds lvl id).
Proof.
  intros H. apply linked_set_levels; [exact H |].
  apply Forall_update_nth; [intros a Ha; exact Ha |].
  apply H.
Qed.

Lemma linked_add_populating ds lvl id :
  linked self ds -> linked self (add_populating ds lvl id).
Proof.
  intros H. apply linked_set_levels; [exact H |].
  apply Forall_update_nth; [intros a Ha; exact Ha |].
  apply H.
Qed.

Lemma GammaRecord_init_linked ds record cmts xr orig ds' g :
  linked self ds ->
  GammaRecord_init U ds record cmts xr orig = Ok (ds', g) ->
  linked self ds' /\ base_linked self (d_base g)
  /\ records ds' = records ds.
Proof.
  intros Hl H. unfold GammaRecord_init in H.
  apply bind_ok in H. destruct H as ([p gf] & _ & H).
  apply bind_ok in H. destruct H as ([ds2 dest] & Hdet & H).
  injection H as <- <-.
  assert (Hself : self_ref ds = self) by apply Hl.
  assert (Hl1 : linked self (joined_decays ds orig))
    by (destruct orig; [apply linked_add_decay |]; exact Hl).
  assert (Hr1 : records (joined_decays ds orig) = records ds)
    by (destruct orig; reflexivity).
  fold (joined_decays ds orig) in Hdet.
  split; [| split].
  - destruct (determine_dest_level_cases _ _ _ _ _ _ _ Hdet)
      as [[-> _] | (i & -> & _)]; [exact Hl1 |].
    apply linked_add_populating. exact Hl1.
  - simpl. rewrite Hself. auto with linked.
  - destruct (determine_dest_level_cases _ _ _ _ _ _ _ Hdet)
      as [[-> _] | (i & -> & _)]; exact Hr1.
Qed.

Lemma add_level_linked ds record cmts xr ds' n :
  linked self ds ->
  _add_level U ds record cmts xr = Ok (ds', n) -> linked self ds'.
Proof.
  intros Hl H. unfold _add_level in H.
  apply bind_ok in H. destruct H as (lvl & Hinit & H).
  injection H as <- <-.
  assert (Hself : self_ref ds = self) by apply Hl.
  rewrite Hself in Hinit.
  apply linked_set_levels; [exact Hl |].
  apply Forall_snoc; [apply Hl |].
  eapply LevelRecord_init_linked; exact Hinit.
Qed.

Lemma linked_set_records ds rs :
  linked self ds ->
  Forall (fun d => base_linked self (d_base d)) rs ->
  linked self (set_records ds rs).
Proof.
  intros (H1 & H2 & H3 & H4 & H5 & H6) Hrs.
  repeat apply conj; assumption.
Qed.

Lemma add_record_linked ds record cmts xr level ds' :
  linked self ds ->
  _add_record U ds record cmts xr level = Ok ds' -> linked self ds'.
Proof.
  intros Hl H. unfold _add_record in H.
  assert (Hself : self_ref ds = self) by apply Hl.
  assert (Hrs : Forall (fun d => base_linked self (d_base d)) (records ds))
    by apply Hl.
  rewrite Hself in H.
  apply bind_ok in H. destruct H as (ty & _ & H).
  apply bind_ok in H. destruct H as ([ds1 r] & Hinit & H).
  injection H as <-.
  destruct ty; try discriminate Hinit;
    try (apply bind_ok in Hinit; destruct Hinit as (r' & Hinit & Heq);
         injection Heq as <- <-;
         apply linked_set_records; [exact Hl |];
         apply Forall_snoc; [exact Hrs |]).
  - eapply BetaRecord_init_linked; exact Hinit.
  - eapply ECRecord_init_linked; exact Hinit.
  - eapply AlphaRecord_init_linked; exact Hinit.
  - destruct (GammaRecord_init_linked _ _ _ _ _ _ _ Hl Hinit)
      as (Hl1 & Hg & Hr).
    apply linked_set_records; [exact Hl1 |].
    rewrite Hr. apply Forall_snoc; [exact Hrs | exact Hg].
  - eapply ParticleRecord_init_linked; exact Hinit.
Qed.

Lemma close_record_linked st st' :
  linked self (st_ds st) ->
  close_record U st = Ok st' -> linked self (st_ds st').
Proof.
  intros Hl H. unfold close_record in H.
  destruct (st_record st) as [| r0 rest] eqn:Er.
  - injection H as <-. exact Hl.
  - apply bind_ok in H. destruct H as (c7 & _ & H).
    destruct (Ascii.eqb c7 "L").
    + apply bind_ok in H. destruct H as ([ds' lvl] & Hadd & H).
      injection H as <-. simpl.
      eapply add_level_linked; eassumption.
    + apply bind_ok in H. destruct H as (ds' & Hadd & H).
      injection H as <-. simpl.
      eapply add_record_linked; eassumption.
Qed.

Lemma header_step_linked st line st' :
  linked self (st_ds st) ->
  header_step st line = Ok st' -> linked self (st_ds st').
Proof.
  intros Hl H. unfold header_step in H.
  assert (Hself : self_ref (st_ds st) = self) by apply Hl.
  destruct Hl as (H1 & H2 & H3 & H4 & H5 & H6).
  rewrite Hself in H.
  apply bind_ok in H. destruct H as (c6 & _ & H).
  destruct (existsb _ _).
  { injection H as <-. simpl. repeat apply conj; assumption. }
  apply bind_ok in H. destruct H as (sig & _ & H).
  apply bind_ok in H. destruct H as (c7 & _ & H).
  destruct sig.
  { injection H as <-. simpl. repeat apply conj; assumption. }
  destruct (Ascii.eqb c7 "X").
  { apply bind_ok in H. destruct H as (x & Hx & H).
    injection H as <-. simpl.
    unfold CrossReferenceRecord_init in Hx.
    apply bind_ok in Hx. destruct Hx as (c8 & _ & Hx). injection Hx as <-.
    repeat apply conj; try assumption.
    apply Forall_snoc; [assumption | reflexivity]. }
  destruct (Ascii.eqb c7 "P").
  { apply bind_ok in H. destruct H as (b & Hb & H).
    injection H as <-. simpl.
    repeat apply conj; try assumption.
    apply Forall_snoc; [assumption |].
    eapply ParentRecord_init_linked; exact Hb. }
  destruct (Ascii.eqb c7 "R").
  { injection H as <-. simpl.
    repeat apply conj; try assumption.
    apply Forall_snoc; [assumption | reflexivity]. }
  destruct (Ascii.eqb (Py.upper_char c7) "Q").
  { injection H as <-. simpl. repeat apply conj; assumption. }
  destruct (Ascii.eqb (Py.upper_char c7) "H");
    injection H as <-; simpl; repeat apply conj; assumption.
Qed.

Lemma body_step_linked st line st' :
  linked self (st_ds st) ->
  body_step U st line = Ok st' -> linked self (st_ds st').
Proof.
  intros Hl H. unfold body_step in H.
  apply bind_ok in H. destruct H as (cls & _ & H).
  destruct cls; try (injection H as <-; exact Hl).
  - apply bind_ok in H. destruct H as (st1 & Hclose & H).
    injection H as <-. simpl.
    eapply close_record_linked; eassumption.
  - apply bind_ok in H. destruct H as (cs & _ & H).
    injection H as <-. exact Hl.
Qed.

Lemma parse_line_linked st line st' :
  linked self (st_ds st) ->
  parse_line U st line = Ok st' -> linked self (st_ds st').
Proof.
  intros Hl H. unfold parse_line in H.
  apply bind_ok in H. destruct H as (st1 & H1 & H).
  assert (Hl1 : linked self (st_ds st1)).
  { destruct (st_header st).
    - eapply header_step_linked; eassumption.
    - injection H1 as <-. exact Hl. }
  destruct (st_header st1).
  - injection H as <-. exact Hl1.
  - eapply body_step_linked; eassumption.
Qed.

Lemma parse_lines_linked lines :
  forall st st',
    linked self (st_ds st) ->
    parse_lines U st lines = Ok st' -> linked self (st_ds st').
Proof.
  induction lines as [| line rest IH]; intros st st' Hl H; simpl in H.
  - injection H as <-. exact Hl.
  - apply bind_ok in H. destruct H as (st1 & H1 & H).
    eapply IH; [| exact H].
    eapply parse_line_linked; eassumption.
Qed.

Lemma parse_dataset_linked ds ds' :
  linked self ds -> _parse_dataset U ds = Ok ds' -> linked self ds'.
Proof.
  intros Hl H. unfold _parse_dataset in H.
  apply bind_ok in H. destruct H as (st & Hlines & H).
  apply bind_ok in H. destruct H as (st1 & Hclose & H).
  injection H as <-.
  apply parse_lines_linked in Hlines; [| exact Hl].
  apply close_record_linked in Hclose; [| exact Hlines].
  destruct Hclose as (H1 & H2 & H3 & H4 & H5 & H6).
  repeat apply conj; assumption.
Qed.

Lemma Dataset_init_linked text ds :
  Dataset_init U self text = Ok ds -> linked self ds.
Proof.
  unfold Dataset_init. intros H.
  destruct (Py.split (ascii_of_nat 10) text) as [| hd rw];
    [discriminate H |].
  eapply parse_dataset_linked; [| exact H].
  repeat apply conj; simpl; auto.
Qed.

(** Every record of a linked dataset that is not a Q-value record has the
    [dataset] attribute, and it is the dataset. *)
Lemma linked_produced_records ds r :
  linked self ds ->
  In r (produced_records ds) ->
  (exists q, r = AQValue q) \/ get_dataset r = Ok self.
Proof.
  intros (H1 & H2 & H3 & H4 & H5 & H6) Hin.
  rewrite Forall_forall in H2, H3, H4, H5, H6.
  unfold produced_records in Hin.
  repeat (apply in_app_or in Hin; destruct Hin as [Hin | Hin]).
  - apply in_map_iff in Hin. destruct Hin as (l & <- & Hl).
    right. simpl. f_equal. apply (H2 l Hl).
  - apply in_flat_map in Hin. destruct Hin as (l & Hl & Hin).
    apply in_map_iff in Hin. destruct Hin as (c & <- & Hc).
    right. simpl. f_equal.
    destruct (H2 l Hl) as [_ Hcs]. rewrite Forall_forall in Hcs. auto.
  - apply in_map_iff in Hin. destruct Hin as (d & <- & Hd).
    right. simpl. f_equal. apply (H3 d Hd).
  - apply in_flat_map in Hin. destruct Hin as (d & Hd & Hin).
    apply in_map_iff in Hin. destruct Hin as (c & <- & Hc).
    right. simpl. f_equal.
    destruct (H3 d Hd) as [_ Hcs]. rewrite Forall_forall in Hcs. auto.
  - apply in_map_iff in Hin. destruct Hin as (b & <- & Hb).
    right. simpl. f_equal. apply (H4 b Hb).
  - apply in_map_iff in Hin. destruct Hin as (q & <- & Hq).
    left. exists q. reflexivity.
  - apply in_map_iff in Hin. destruct Hin as (x & <- & Hx).
    right. simpl. f_equal. apply (H5 x Hx).
  - apply in_map_iff in Hin. destruct Hin as (x & <- & Hx).
    right. simpl. f_equal. apply (H6 x Hx).
Qed.

End Linked.

(** ** Where the code departs from its description *)

(** C2. For an entry without [=], [<] and [>] that holds an abbreviation
    code between spaces, [load_prop] splits at the first two spaces and
    stores the third part followed by the second under the second part,
    which is the code, not under the first part; it then leaves, and the
    entries that follow are not read.  The entry [BE2W AP 12] is stored as
    [AP -> 12 AP]. *)
Theorem load_prop_abbreviation_stored_under_code :
  (forall (p : dict) (raw_entry t1 t2 v abbr : string),
      String.eqb (Py.strip raw_entry) "" = false ->
      Py.mem_char "=" (Py.strip raw_entry) = false ->
      first_symb ["<"; ">"]%char (Py.strip raw_entry) = None ->
      first_abbr abbreviations (Py.strip raw_entry) = Some abbr ->
      Py.split_max " " 2 (Py.strip raw_entry) = [t1; t2; v] ->
      load_prop_entry p raw_entry
      = Ok (dict_set p (Py.strip t2) (Py.strip v ++ " " ++ t2), Return))
  /\ Py.split_max " " 2 "BE2W AP 12" = ["BE2W"; "AP"; "12"]
  /\ load_prop_entry [] "BE2W AP 12" = Ok ([("AP", "12 AP")], Return)
  /\ load_prop [] [Fixture.gamma_cont_AP] = Ok [("AP", "12 AP")]
  /\ dict_get [("AP", "12 AP")] "BE2W" = None
  /\ dict_get [("AP", "12 AP")] "FL" = None.
Proof.
  split; [| repeat apply conj; reflexivity].
  intros p raw_entry t1 t2 v abbr Hne Heq Hsymb Habbr Hsplit.
  unfold load_prop_entry.
  rewrite Hne, Heq, Hsymb, Habbr, Hsplit. reflexivity.
Qed.

(** C6. The segment after the last [$] of the history text is dropped
    whatever it holds, so the mapping never depends on it, even when it is
    not empty and holds an [=]: header lines whose text is [TYP=B+$MOM=GS]
    leave a history without [MOM], while [TYP=B+$MOM=GS$] gives both
    entries; a segment without [=] is passed over. *)
Theorem history_last_segment_dropped :
  (forall (h : dict) (t last : string),
      Py.mem_char "$" last = false ->
      parse_history h (t ++ String "$" last)
      = parse_history h (t ++ String "$" ""))
  /\ (exists ds,
        Fixture.parse
          (Fixture.unlines [Fixture.header_card; Fixture.history_open;
                            Fixture.level_0]) = Ok ds
        /\ history ds = [("TYP", "B+")])
  /\ (exists ds,
        Fixture.parse
          (Fixture.unlines [Fixture.header_card; Fixture.history_closed;
                            Fixture.level_0]) = Ok ds
        /\ history ds = [("TYP", "B+"); ("MOM", "GS")])
  /\ parse_history [] "A=1$B=2" = [("A", "1")]
  /\ parse_history [] "A=1$junk$B=2$" = [("A", "1"); ("B", "2")].
Proof.
  repeat apply conj; try reflexivity.
  - intros h t last Hlast. unfold parse_history.
    rewrite (drop_last_split_app "$" t last Hlast).
    rewrite (drop_last_split_app "$" t "" eq_refl).
    reflexivity.
  - eexists. split; [vm_compute; reflexivity | reflexivity].
  - eexists. split; [vm_compute; reflexivity | reflexivity].
Qed.

(** C7. The last line of the dataset text is dropped whether or not it is
    empty: whatever follows the last newline is kept in [raw] but is not
    among the lines the loop visits.  Without a final newline the gamma card
    that ends the text is never classified and no record comes of it, while
    the same text followed by a newline yields the gamma. *)
Theorem final_line_dropped :
  (forall (t l hd : string) (rw : list string),
      Py.mem_char (ascii_of_nat 10) l = false ->
      Py.split (ascii_of_nat 10) t = hd :: rw ->
      Py.split (ascii_of_nat 10) (t ++ Fixture.nl ++ l) = hd :: rw ++ [l]
      /\ Py.list_drop_last (rw ++ [l]) = rw)
  /\ (exists ds,
        Fixture.parse
          (Fixture.join_lines [Fixture.header_card; Fixture.level_0;
                               Fixture.level_1000; Fixture.gamma_near_1000])
          = Ok ds
        /\ records ds = []
        /\ length (levels ds) = 2)
  /\ (exists ds,
        Fixture.parse
          (Fixture.unlines [Fixture.header_card; Fixture.level_0;
                            Fixture.level_1000; Fixture.gamma_near_1000])
          = Ok ds
        /\ length (records ds) = 1
        /\ length (levels ds) = 2).
Proof.
  split; [| split].
  - intros t l hd rw Hl Hsplit. split.
    + change (t ++ Fixture.nl ++ l)%string
        with (t ++ String (ascii_of_nat 10) l)%string.
      rewrite (split_app_last _ t l Hl), Hsplit. reflexivity.
    + apply removelast_last.
  - eexists. split; [vm_compute; reflexivity |].
    split; reflexivity.
  - eexists. split; [vm_compute; reflexivity |].
    split; reflexivity.
Qed.

(** C9. A Q-value record does not carry the dataset.  Every other record
    object of a parsed dataset (levels, decays, parents, cross-references,
    references and the comments attached to records) has a [dataset]
    attribute that is the dataset that built it; a dataset with a [Q] card
    among its header lines holds a record without that attribute. *)
Theorem qvalue_record_without_dataset :
  (forall (U : Util) (self : DatasetRef) (text : string) (ds : Dataset)
          (r : AnyRecord),
      Dataset_init U self text = Ok ds ->
      In r (produced_records ds) ->
      (exists q, r = AQValue q) \/ get_dataset r = Ok self)
  /\ (forall q, get_dataset (AQValue q) = Raise AttributeError)
  /\ exists ds q,
      Fixture.parse
        (Fixture.unlines [Fixture.header_card; Fixture.parent_card;
                          Fixture.qvalue_card; Fixture.level_0]) = Ok ds
      /\ qrecords ds = [q]
      /\ In (AQValue q) (produced_records ds)
      /\ map get_dataset (produced_records ds)
         = [Ok (self_ref ds); Ok (self_ref ds); Raise AttributeError].
Proof.
  split; [| split].
  - intros U self text ds r Hinit Hin.
    eapply linked_produced_records; [| exact Hin].
    eapply Dataset_init_linked; exact Hinit.
  - reflexivity.
  - eexists. eexists. split; [vm_compute; reflexivity |].
    repeat apply conj; try reflexivity.
    vm_compute. right. right. left. reflexivity.
Qed.

(** * Further properties of the parser *)

(** ** Lines that are too short *)

Lemma get_short (s : string) (n : nat) :
  String.length s <= n -> String.get n s = None.
Proof.
  revert n; induction s as [| c s IH]; intros n H; simpl.
  - reflexivity.
  - destruct n as [| n]; simpl in H; [lia |].
    apply IH. lia.
Qed.

Lemma index_short (s : string) (n : nat) :
  String.length s <= n -> Py.index s n = Raise IndexError.
Proof. intros H. unfold Py.index. rewrite (get_short s n H). reflexivity. Qed.

Lemma parse_line_short (U : Util) (st : pstate) (line : string) :
  String.length line <= 6 -> parse_line U st line = Raise IndexError.
Proof.
  intros H. unfold parse_line.
  destruct (st_header st) eqn:Eh.
  - unfold header_step. rewrite (index_short line 6 H). reflexivity.
  - cbn [bind]. rewrite Eh.
    unfold body_step, classify_body, record_signature.
    rewrite (index_short line 7) by lia. reflexivity.
Qed.

(** X1. A line of fewer than seven characters (an empty line in the middle
    of the text, for instance) cannot be classified: in the header state
    and in the body state alike the loop body raises [IndexError], and a
    sequence of lines that holds such a line never parses. *)
Theorem short_line_aborts_parse (U : Util) (st : pstate)
  (before after : list string) (line : string) :
  String.length line <= 6 ->
  parse_line U st line = Raise IndexError
  /\ exists e, parse_lines U st (before ++ line :: after) = Raise e.
Proof.
  intros H. split; [apply parse_line_short; exact H |].
  revert st. induction before as [| b before IH]; intros st; simpl.
  - rewrite (parse_line_short U st line H). eexists. reflexivity.
  - destruct (parse_line U st b) as [st1 | e]; cbn [bind].
    + apply IH.
    + eexists. reflexivity.
Qed.

Lemma short_line_aborts_parse_witness :
  exists e,
    parse_lines SpecUtil.util
      {| st_ds := Fixture.empty_dataset; st_comments := []; st_record := [];
         st_xref := []; st_level := None; st_history := "";
         st_header := true |}
      ([Fixture.level_0] ++ "" :: [Fixture.gamma_1000]) = Raise e.
Proof.
  apply (short_line_aborts_parse SpecUtil.util
           {| st_ds := Fixture.empty_dataset; st_comments := [];
              st_record := []; st_xref := []; st_level := None;
              st_history := ""; st_header := true |}
           [Fixture.level_0] [Fixture.gamma_1000] "").
  simpl. lia.
Defined.

(** ** A text that is only a header *)

(** X2. A text without a newline is a header and nothing else: whatever it
    holds, and however short it is, [Dataset.__init__] does not raise and
    returns a dataset with the five header fields cut from it and with no
    record, level, comment or history entry. *)
Theorem header_only_text (U : Util) (self : DatasetRef) (hd : string) :
  Py.mem_char (ascii_of_nat 10) hd = false ->
  Dataset_init U self hd
  = Ok {| self_ref := self; header := hd; raw := [];
          nucid := Py.strip (Py.slice hd 0 5);
          dataset_id := Py.strip (Py.slice hd 9 39);
          dataset_ref := Py.strip (Py.slice hd 39 65);
          publication := Py.strip (Py.slice hd 65 74);
          date_text := Py.strip (Py.slice hd 74 80);
          records := []; levels := []; history := []; qrecords := [];
          ds_comments := []; parents := []; references := [];
          cross_references := [] |}.
Proof.
  intros H. unfold Dataset_init, Py.split.
  rewrite (split_max_no_sep _ _ hd H). reflexivity.
Qed.

Lemma header_only_text_witness :
  exists ds,
    Dataset_init SpecUtil.util 1 "60NI" = Ok ds
    /\ nucid ds = "60NI" /\ levels ds = [] /\ records ds = [].
Proof.
  eexists. split.
  - apply (header_only_text SpecUtil.util 1 "60NI"). reflexivity.
  - repeat apply conj; reflexivity.
Defined.

(** ** The body state is final *)

Lemma header_part_determine (U : Util) (ds ds' : Dataset) (id : nat)
  (p : dict) (gf : GammaFields) (dest : option nat) :
  _determine_dest_level U ds id p gf = Ok (ds', dest) ->
  header_part ds' = header_part ds /\ records ds' = records ds.
Proof.
  intros H.
  destruct (determine_dest_level_cases _ _ _ _ _ _ _ H)
    as [[-> _] | (i & -> & _)]; split; reflexivity.
Qed.

Lemma header_part_gamma (U : Util) (ds ds' : Dataset) record cmts xr orig g :
  GammaRecord_init U ds record cmts xr orig = Ok (ds', g) ->
  header_part ds' = header_part ds.
Proof.
  unfold GammaRecord_init. intros H.
  apply bind_ok in H. destruct H as ([p gf] & _ & H).
  apply bind_ok in H. destruct H as ([ds2 dest] & Hdet & H).
  injection H as <- _.
  apply header_part_determine in Hdet. destruct Hdet as [-> _].
  destruct orig; reflexivity.
Qed.

Lemma header_part_add_record (U : Util) (ds ds' : Dataset) record cmts xr lvl :
  _add_record U ds record cmts xr lvl = Ok ds' ->
  header_part ds' = header_part ds.
Proof.
  unfold _add_record. intros H.
  apply bind_ok in H. destruct H as (ty & _ & H).
  apply bind_ok in H. destruct H as ([ds1 r] & Hinit & H).
  injection H as <-.
  destruct ty; try discriminate Hinit;
    try (apply bind_ok in Hinit; destruct Hinit as (r' & _ & Heq);
         injection Heq as <- _; reflexivity).
  apply header_part_gamma in Hinit. exact Hinit.
Qed.

Lemma close_record_frame (U : Util) (st st' : pstate) :
  close_record U st = Ok st' ->
  st_header st' = st_header st
  /\ st_history st' = st_history st
  /\ header_part (st_ds st') = header_part (st_ds st).
Proof.
  unfold close_record. intros H.
  destruct (st_record st) as [| r0 rest].
  - injection H as <-. auto.
  - apply bind_ok in H. destruct H as (c7 & _ & H).
    destruct (Ascii.eqb c7 "L").
    + apply bind_ok in H. destruct H as ([ds' lvl] & Hadd & H).
      injection H as <-. simpl.
      unfold _add_level in Hadd.
      apply bind_ok in Hadd. destruct Hadd as (l & _ & Hadd).
      injection Hadd as <- _. auto.
    + apply bind_ok in H. destruct H as (ds' & Hadd & H).
      injection H as <-. simpl.
      apply header_part_add_record in Hadd. auto.
Qed.

Lemma body_step_frame (U : Util) (st st' : pstate) (line : string) :
  body_step U st line = Ok st' ->
  st_header st' = st_header st
  /\ st_history st' = st_history st
  /\ header_part (st_ds st') = header_part (st_ds st).
Proof.
  unfold body_step. intros H.
  apply bind_ok in H. destruct H as (cls & _ & H).
  destruct cls; try (injection H as <-; auto).
  - apply bind_ok in H. destruct H as (st1 & Hclose & H).
    injection H as <-. simpl. apply close_record_frame in Hclose. exact Hclose.
  - apply bind_ok in H. destruct H as (cs & _ & H).
    injection H as <-. auto.
Qed.

(** X3. The body state is final.  Once [header] is false it stays false, and
    no later line adds to what the header state collects: the dataset's
    comment lines, its parent, reference, Q-value and cross-reference
    records and the history text are the same after any number of further
    lines (a [P], [Q], [R], [X] or [H] card met there becomes part of a
    record instead). *)
Theorem body_state_is_final (U : Util) (lines : list string)
  (st st' : pstate) :
  st_header st = false ->
  parse_lines U st lines = Ok st' ->
  st_header st' = false
  /\ st_history st' = st_history st
  /\ header_part (st_ds st') = header_part (st_ds st).
Proof.
  revert st. induction lines as [| line rest IH]; intros st Hh H; simpl in H.
  - injection H as <-. auto.
  - apply bind_ok in H. destruct H as (st1 & H1 & H).
    unfold parse_line in H1. rewrite Hh in H1. cbn [bind] in H1.
    rewrite Hh in H1.
    apply body_step_frame in H1. destruct H1 as (E1 & E2 & E3).
    rewrite Hh in E1.
    destruct (IH st1 E1 H) as (F1 & F2 & F3).
    rewrite F2, F3. auto.
Qed.

Lemma body_state_is_final_witness :
  exists st',
    parse_lines SpecUtil.util (Cards.pending Fixture.empty_dataset [])
      [Fixture.level_0; Fixture.qvalue_card; Fixture.parent_card] = Ok st'
    /\ header_part (st_ds st') = header_part Fixture.empty_dataset.
Proof.
  destruct (parse_lines SpecUtil.util (Cards.pending Fixture.empty_dataset [])
              [Fixture.level_0; Fixture.qvalue_card; Fixture.parent_card])
    as [st' | e] eqn:E; [| vm_compute in E; discriminate E].
  exists st'. split; [reflexivity |].
  apply (body_state_is_final SpecUtil.util
           [Fixture.level_0; Fixture.qvalue_card; Fixture.parent_card]
           (Cards.pending Fixture.empty_dataset []) st' eq_refl E).
Defined.

(** ** Record letters in lower case *)

Lemma mem_bagel (c : ascii) :
  Py.mem_char c "bagel" = true ->
  c = "b"%char \/ c = "a"%char \/ c = "g"%char \/ c = "e"%char
  \/ c = "l"%char.
Proof.
  simpl. rewrite !orb_true_iff, !Ascii.eqb_eq.
  intros [H | [H | [H | [H | [H | H]]]]]; auto 6. discriminate H.
Qed.

(** X4. The record signature is tested without regard to case, the record
    type with it.  A pending record whose first line has a lower-case
    [b], [a], [g], [e] or [l] in column 7 was accepted by the signature
    test, but it cannot be built: [get_record_type] raises
    [NotImplementedError], and so does the closing of the record (a
    lower-case [l] is not taken for a level either). *)
Theorem lower_case_record_unbuildable (U : Util) (st : pstate)
  (line : string) (rest : list string) (c : ascii) :
  st_record st = line :: rest ->
  String.get 7 line = Some c ->
  Py.mem_char c "bagel" = true ->
  record_signature line = Ok true
  /\ get_record_type (line :: rest) = Raise NotImplementedError
  /\ close_record U st = Raise NotImplementedError.
Proof.
  intros Hrec Hget Hc.
  unfold close_record, _add_record, get_record_type, record_signature.
  rewrite Hrec. cbn [seq_item0 bind].
  rewrite (index_get _ _ _ Hget). cbn [bind].
  destruct (mem_bagel c Hc) as [-> | [-> | [-> | [-> | ->]]]];
    repeat apply conj; reflexivity.
Qed.

Lemma lower_case_record_unbuildable_witness :
  close_record SpecUtil.util
    (Cards.pending Fixture.empty_dataset [Cards.gamma_lower])
  = Raise NotImplementedError.
Proof.
  apply (lower_case_record_unbuildable SpecUtil.util
           (Cards.pending Fixture.empty_dataset [Cards.gamma_lower])
           Cards.gamma_lower [] "g"%char); reflexivity.
Defined.

(** ** Decay records other than gammas *)

Lemma add_record_other (U : Util) (ds : Dataset)
  (record : list string) (cmts : list (list string)) (xr : list string)
  (level : option nat) (ty : RecordType) (ds' : Dataset) :
  get_record_type record = Ok ty ->
  ty <> TGamma ->
  _add_record U ds record cmts xr level = Ok ds' ->
  levels ds' = levels ds
  /\ exists r,
      records ds' = records ds ++ [r]
      /\ dest_level r = level
      /\ forall gf, d_kind r <> Gamma gf.
Proof.
  intros Hty Hng H. unfold _add_record in H.
  rewrite Hty in H. cbn [bind] in H.
  apply bind_ok in H. destruct H as ([ds1 r] & Hinit & H).
  injection H as <-.
  destruct ty; try discriminate Hinit; try (contradiction Hng; reflexivity);
    apply bind_ok in Hinit; destruct Hinit as (r' & Hinit & Heq);
    injection Heq as <- <-;
    (split; [reflexivity |]); exists r';
    (split; [reflexivity |]).
  - unfold BetaRecord_init in Hinit. inv_bind Hinit.
    injection Hinit as <-. split; [reflexivity | discriminate].
  - unfold ECRecord_init in Hinit. inv_bind Hinit.
    injection Hinit as <-. split; [reflexivity | discriminate].
  - unfold AlphaRecord_init in Hinit. inv_bind Hinit.
    injection Hinit as <-. split; [reflexivity | discriminate].
  - unfold ParticleRecord_init in Hinit. inv_bind Hinit.
    injection Hinit as <-. split; [reflexivity | discriminate].
Qed.

(** X5. A beta, electron-capture, alpha or particle record is appended to
    the records with the current level as its [dest_level]; building it
    changes no level: it joins neither a [decays] nor a [populating] list. *)
Theorem other_decays_leave_levels (U : Util) (ds : Dataset)
  (record : list string) (cmts : list (list string)) (xr : list string)
  (level : option nat) (ty : RecordType) (ds' : Dataset) :
  get_record_type record = Ok ty ->
  ty <> TGamma ->
  _add_record U ds record cmts xr level = Ok ds' ->
  levels ds' = levels ds
  /\ exists r,
      records ds' = records ds ++ [r]
      /\ dest_level r = level
      /\ forall gf, d_kind r <> Gamma gf.
Proof. apply add_record_other. Qed.

Lemma other_decays_leave_levels_witness :
  exists ds',
    _add_record SpecUtil.util Fixture.two_levels [Cards.beta_1000] [] []
      (Some 1) = Ok ds'
    /\ levels ds' = levels Fixture.two_levels.
Proof.
  destruct (_add_record SpecUtil.util Fixture.two_levels [Cards.beta_1000]
              [] [] (Some 1)) as [ds' | e] eqn:E;
    [| vm_compute in E; discriminate E].
  exists ds'. split; [reflexivity |].
  apply (other_decays_leave_levels SpecUtil.util Fixture.two_levels
           [Cards.beta_1000] [] [] (Some 1) TBeta ds').
  - reflexivity.
  - discriminate.
  - exact E.
Defined.

(** ** The level graph is consistent *)

Lemma min_loop_in {A : Type} (key : A -> result float) (l : list A) :
  forall best kbest x,
    min_loop key l best kbest = Ok x -> x = best \/ In x l.
Proof.
  induction l as [| y l IH]; intros best kbest x H; simpl in H.
  - injection H as <-. left. reflexivity.
  - apply bind_ok in H. destruct H as (ky & _ & H).
    destruct (Float.ltb ky kbest).
    + destruct (IH _ _ _ H) as [-> | Hin]; right; [left | right]; auto.
    + destruct (IH _ _ _ H) as [-> | Hin]; [left | right; right]; auto.
Qed.

Lemma py_min_in {A : Type} (key : A -> result float) (l : list A) (x : A) :
  py_min key l = Ok x -> In x l.
Proof.
  destruct l as [| a l]; simpl; [discriminate |].
  intros H. apply bind_ok in H. destruct H as (ka & _ & H).
  destruct (min_loop_in _ _ _ _ _ H) as [-> | Hin]; [left | right]; auto.
Qed.

(** A destination that was found is a candidate. *)
Lemma determine_dest_level_some (U : Util) (ds ds' : Dataset) (id : nat)
  (p : dict) (gf : GammaFields) (i : nat) :
  _determine_dest_level U ds id p gf = Ok (ds', Some i) ->
  ds' = add_populating ds i id
  /\ exists l, In (i, l) (candidates ds gf).
Proof.
  unfold _determine_dest_level. intros H.
  apply bind_ok in H. destruct H as ([| d] & _ & H); [discriminate H |].
  destruct (py_min (dest_key d) (candidates ds gf)) as [[j l] | e] eqn:E.
  - injection H as <- <-. split; [reflexivity |].
    exists l. apply (py_min_in _ _ _ E).
  - destruct e; discriminate H.
Qed.

Lemma nth_error_in_range {A : Type} (l : list A) (i : nat) (a : A) :
  nth_error l i = Some a -> i < length l.
Proof. intros H. apply nth_error_Some. congruence. Qed.

Lemma gamma_fields_orig (U : Util) (record : list string) (orig : option nat)
  (p : dict) (gf : GammaFields) :
  gamma_fields U record orig = Ok (p, gf) -> orig_level gf = orig.
Proof.
  unfold gamma_fields. intros H. inv_bind H.
  injection H as _ <-. reflexivity.
Qed.

(** All that building a gamma does to the dataset. *)
Lemma GammaRecord_init_effect (U : Util) (ds ds' : Dataset) record cmts xr
  (orig : option nat) (g : DecayRecord) :
  GammaRecord_init U ds record cmts xr orig = Ok (ds', g) ->
  levels ds' = link_gamma (length (records ds)) orig (dest_level g) (levels ds)
  /\ records ds' = records ds
  /\ (exists gf, d_kind g = Gamma gf /\ orig_level gf = orig)
  /\ (forall i, dest_level g = Some i -> i < length (levels ds)).
Proof.
  unfold GammaRecord_init. intros H.
  apply bind_ok in H. destruct H as ([p gf] & Hf & H).
  apply bind_ok in H. destruct H as ([ds2 dest] & Hdet & H).
  injection H as <- <-. simpl.
  apply gamma_fields_orig in Hf.
  fold (joined_decays ds orig) in Hdet.
  assert (Hl1 : levels (joined_decays ds orig)
                = update_opt orig (level_add_decay (length (records ds)))
                    (levels ds)) by (destruct orig; reflexivity).
  assert (Hr1 : records (joined_decays ds orig) = records ds)
    by (destruct orig; reflexivity).
  destruct dest as [i |].
  - apply determine_dest_level_some in Hdet.
    destruct Hdet as (-> & l & Hin).
    apply candidates_spec in Hin. destruct Hin as [Hnth _].
    apply nth_error_in_range in Hnth.
    repeat apply conj.
    + simpl. unfold link_gamma. rewrite Hl1. reflexivity.
    + exact Hr1.
    + exists gf. split; [reflexivity | exact Hf].
    + intros j [= <-]. rewrite Hl1 in Hnth.
      destruct orig as [o |]; simpl in Hnth; [| exact Hnth].
      revert Hnth. clear. generalize (levels ds) as ls. intros ls.
      revert i o; induction ls as [| a ls IH]; intros i [| o]; simpl;
        try lia; destruct i; simpl; try lia.
      intros H. apply Nat.succ_lt_mono in H. apply IH in H. lia.
  - destruct (determine_dest_level_cases _ _ _ _ _ _ _ Hdet)
      as [[-> _] | (i & _ & Hd)]; [| discriminate Hd].
    repeat apply conj.
    + unfold link_gamma. simpl. exact Hl1.
    + exact Hr1.
    + exists gf. split; [reflexivity | exact Hf].
    + discriminate.
Qed.

Lemma nth_error_snoc {A : Type} (l : list A) (a x : A) (i : nat) :
  nth_error (l ++ [a]) i = Some x ->
  nth_error l i = Some x \/ (i = length l /\ x = a).
Proof.
  intros H. destruct (Nat.lt_ge_cases i (length l)) as [Hlt | Hge].
  - left. rewrite nth_error_app1 in H by exact Hlt. exact H.
  - right. rewrite nth_error_app2 in H by exact Hge.
    destruct (i - length l) as [| k] eqn:E; simpl in H.
    + injection H as <-. split; [lia | reflexivity].
    + destruct k; discriminate H.
Qed.

Lemma nth_error_snoc_old {A : Type} (l : list A) (a x : A) (i : nat) :
  nth_error l i = Some x -> nth_error (l ++ [a]) i = Some x.
Proof.
  intros H. rewrite nth_error_app1; [exact H |].
  apply (nth_error_in_range _ _ _ H).
Qed.

Lemma nth_error_snoc_new {A : Type} (l : list A) (a : A) :
  nth_error (l ++ [a]) (length l) = Some a.
Proof.
  rewrite nth_error_app2 by lia. rewrite Nat.sub_diag. reflexivity.
Qed.

Lemma nth_error_update_opt {A : Type} (o : option nat) (f : A -> A)
  (l : list A) (j : nat) :
  nth_error (update_opt o f l) j
  = option_map (fun a => if is_level o j then f a else a) (nth_error l j).
Proof.
  destruct o as [i |]; simpl.
  - destruct (Nat.eqb i j) eqn:E.
    + apply Nat.eqb_eq in E. subst j. apply nth_error_update_nth_same.
    + apply Nat.eqb_neq in E.
      rewrite nth_error_update_nth_other by exact E.
      destruct (nth_error l j); reflexivity.
  - destruct (nth_error l j); reflexivity.
Qed.

Lemma link_gamma_fwd (id : nat) (orig dest : option nat)
  (ls : list LevelRecord) (j : nat) (l : LevelRecord) :
  nth_error ls j = Some l ->
  exists l', nth_error (link_gamma id orig dest ls) j = Some l'
             /\ linked_lists id orig dest j l l'.
Proof.
  intros H. unfold link_gamma.
  rewrite !nth_error_update_opt, H. simpl.
  eexists. split; [reflexivity |].
  unfold linked_lists.
  destruct (is_level dest j), (is_level orig j); simpl;
    rewrite ?app_nil_r; split; reflexivity.
Qed.

Lemma link_gamma_bwd (id : nat) (orig dest : option nat)
  (ls : list LevelRecord) (j : nat) (l' : LevelRecord) :
  nth_error (link_gamma id orig dest ls) j = Some l' ->
  exists l, nth_error ls j = Some l /\ linked_lists id orig dest j l l'.
Proof.
  intros H. destruct (nth_error ls j) as [l |] eqn:E.
  - exists l. split; [reflexivity |].
    destruct (link_gamma_fwd id orig dest ls j l E) as (l2 & H2 & Hl).
    rewrite H in H2. injection H2 as <-. exact Hl.
  - unfold link_gamma in H. rewrite !nth_error_update_opt, E in H.
    discriminate H.
Qed.

Lemma is_level_true (o : option nat) (j : nat) :
  is_level o j = true <-> o = Some j.
Proof.
  destruct o as [i |]; simpl.
  - rewrite Nat.eqb_eq. split; [intros -> | intros [= ->]]; reflexivity.
  - split; discriminate.
Qed.

Lemma in_linked (id id' : nat) (o : option nat) (j : nat) (l : list nat) :
  In id' (l ++ (if is_level o j then [id] else [])) ->
  In id' l \/ (id' = id /\ o = Some j).
Proof.
  intros H. apply in_app_or in H. destruct H as [H | H]; [left; exact H |].
  destruct (is_level o j) eqn:E; [| destruct H].
  destruct H as [<- | []]. right. split; [reflexivity |].
  apply is_level_true. exact E.
Qed.

Lemma links_append_gamma (ds ds' : Dataset) (g : DecayRecord)
  (gf : GammaFields) (orig : option nat) :
  links_consistent ds ->
  levels ds' = link_gamma (length (records ds)) orig (dest_level g) (levels ds) ->
  records ds' = records ds ++ [g] ->
  d_kind g = Gamma gf ->
  orig_level gf = orig ->
  (forall i, orig = Some i -> i < length (levels ds)) ->
  (forall i, dest_level g = Some i -> i < length (levels ds)) ->
  links_consistent ds'.
Proof.
  intros (L1 & L2 & L3 & L4 & L5) Hlv Hrec Hk Ho Horig Hdest.
  unfold links_consistent, gamma_at in *. rewrite Hlv, Hrec.
  repeat apply conj.
  - intros i l' id' Hn Hin.
    apply link_gamma_bwd in Hn. destruct Hn as (l & Hn & Hd & _).
    rewrite Hd in Hin. apply in_linked in Hin.
    destruct Hin as [Hin | [-> ->]].
    + destruct (L1 i l id' Hn Hin) as (g0 & gf0 & [Hg0 Hk0] & Ho0).
      exists g0, gf0. auto using nth_error_snoc_old.
    + exists g, gf. auto using nth_error_snoc_new.
  - intros i l' id' Hn Hin.
    apply link_gamma_bwd in Hn. destruct Hn as (l & Hn & _ & Hp).
    rewrite Hp in Hin. apply in_linked in Hin.
    destruct Hin as [Hin | [-> Hd]].
    + destruct (L2 i l id' Hn Hin) as (g0 & gf0 & [Hg0 Hk0] & Ho0).
      exists g0, gf0. auto using nth_error_snoc_old.
    + exists g, gf. auto using nth_error_snoc_new.
  - intros id' g' gf' i [Hg' Hk'] Ho'.
    apply nth_error_snoc in Hg'. destruct Hg' as [Hg' | [-> ->]].
    + destruct (L3 id' g' gf' i (conj Hg' Hk') Ho') as (l & Hn & Hin).
      destruct (link_gamma_fwd (length (records ds)) orig (dest_level g)
                  _ _ _ Hn) as (l' & Hn' & Hd & _).
      exists l'. split; [exact Hn' |].
      rewrite Hd. apply in_or_app. left. exact Hin.
    + rewrite Hk in Hk'. injection Hk' as <-.
      rewrite Ho' in Ho. symmetry in Ho.
      destruct (nth_error (levels ds) i) as [l |] eqn:Hn.
      * destruct (link_gamma_fwd (length (records ds)) orig (dest_level g)
                    _ _ _ Hn) as (l' & Hn' & Hd & _).
        exists l'. split; [exact Hn' |].
        rewrite Hd. apply in_or_app. right.
        apply is_level_true in Ho. rewrite Ho. left. reflexivity.
      * apply nth_error_None in Hn. specialize (Horig i Ho). lia.
  - intros id' g' gf' i [Hg' Hk'] Hd'.
    apply nth_error_snoc in Hg'. destruct Hg' as [Hg' | [-> ->]].
    + destruct (L4 id' g' gf' i (conj Hg' Hk') Hd') as (l & Hn & Hin).
      destruct (link_gamma_fwd (length (records ds)) orig (dest_level g)
                  _ _ _ Hn) as (l' & Hn' & _ & Hp).
      exists l'. split; [exact Hn' |].
      rewrite Hp. apply in_or_app. left. exact Hin.
    + destruct (nth_error (levels ds) i) as [l |] eqn:Hn.
      * destruct (link_gamma_fwd (length (records ds)) orig (dest_level g)
                    _ _ _ Hn) as (l' & Hn' & _ & Hp).
        exists l'. split; [exact Hn' |].
        rewrite Hp. apply in_or_app. right.
        apply is_level_true in Hd'. rewrite Hd'. left. reflexivity.
      * apply nth_error_None in Hn. specialize (Hdest i Hd'). lia.
  - intros id' g' i Hg' Hd'.
    assert (Hlen : length (link_gamma (length (records ds)) orig
                             (dest_level g) (levels ds))
                   = length (levels ds)).
    { unfold link_gamma, update_opt.
      assert (Hu : forall (f : LevelRecord -> LevelRecord) k ls,
                 length (update_nth k f ls) = length ls).
      { intros f k ls. revert k; induction ls as [| a ls IH];
          intros [| k]; simpl; auto. }
      destruct (dest_level g), orig; rewrite ?Hu; reflexivity. }
    rewrite Hlen.
    apply nth_error_snoc in Hg'. destruct Hg' as [Hg' | [-> ->]].
    + exact (L5 id' g' i Hg' Hd').
    + exact (Hdest i Hd').
Qed.

Lemma links_append_other (ds ds' : Dataset) (r : DecayRecord) :
  links_consistent ds ->
  levels ds' = levels ds ->
  records ds' = records ds ++ [r] ->
  (forall gf, d_kind r <> Gamma gf) ->
  (forall i, dest_level r = Some i -> i < length (levels ds)) ->
  links_consistent ds'.
Proof.
  intros (L1 & L2 & L3 & L4 & L5) Hlv Hrec Hk Hdest.
  unfold links_consistent, gamma_at in *. rewrite Hlv, Hrec.
  repeat apply conj.
  - intros i l id Hn Hin.
    destruct (L1 i l id Hn Hin) as (g0 & gf0 & [Hg0 Hk0] & Ho0).
    exists g0, gf0. auto using nth_error_snoc_old.
  - intros i l id Hn Hin.
    destruct (L2 i l id Hn Hin) as (g0 & gf0 & [Hg0 Hk0] & Ho0).
    exists g0, gf0. auto using nth_error_snoc_old.
  - intros id g gf i [Hg Hkg] Ho.
    apply nth_error_snoc in Hg. destruct Hg as [Hg | [_ ->]].
    + exact (L3 id g gf i (conj Hg Hkg) Ho).
    + contradiction (Hk gf Hkg).
  - intros id g gf i [Hg Hkg] Hd.
    apply nth_error_snoc in Hg. destruct Hg as [Hg | [_ ->]].
    + exact (L4 id g gf i (conj Hg Hkg) Hd).
    + contradiction (Hk gf Hkg).
  - intros id g i Hg Hd.
    apply nth_error_snoc in Hg. destruct Hg as [Hg | [_ ->]].
    + exact (L5 id g i Hg Hd).
    + exact (Hdest i Hd).
Qed.

Lemma links_append_level (ds ds' : Dataset) (lvl : LevelRecord) :
  links_consistent ds ->
  levels ds' = levels ds ++ [lvl] ->
  records ds' = records ds ->
  decays lvl = [] ->
  populating lvl = [] ->
  links_consistent ds'.
Proof.
  intros (L1 & L2 & L3 & L4 & L5) Hlv Hrec Hd Hp.
  unfold links_consistent, gamma_at in *. rewrite Hlv, Hrec.
  repeat apply conj.
  - intros i l id Hn Hin.
    apply nth_error_snoc in Hn. destruct Hn as [Hn | [_ ->]].
    + exact (L1 i l id Hn Hin).
    + rewrite Hd in Hin. destruct Hin.
  - intros i l id Hn Hin.
    apply nth_error_snoc in Hn. destruct Hn as [Hn | [_ ->]].
    + exact (L2 i l id Hn Hin).
    + rewrite Hp in Hin. destruct Hin.
  - intros id g gf i Hg Ho.
    destruct (L3 id g gf i Hg Ho) as (l & Hn & Hin).
    exists l. auto using nth_error_snoc_old.
  - intros id g gf i Hg Hdl.
    destruct (L4 id g gf i Hg Hdl) as (l & Hn & Hin).
    exists l. auto using nth_error_snoc_old.
  - intros id g i Hg Hdl.
    specialize (L5 id g i Hg Hdl). rewrite length_app. simpl. lia.
Qed.

Lemma links_same (ds ds' : Dataset) :
  levels ds' = levels ds ->
  records ds' = records ds ->
  links_consistent ds -> links_consistent ds'.
Proof.
  intros Hlv Hrec H. unfold links_consistent, gamma_at in *.
  rewrite Hlv, Hrec. exact H.
Qed.

Lemma LevelRecord_init_lists (U : Util) self record cmts xr l :
  LevelRecord_init U self record cmts xr = Ok l ->
  decays l = [] /\ populating l = [].
Proof.
  unfold LevelRecord_init. intros H. inv_bind H.
  injection H as <-. split; reflexivity.
Qed.

Section Graph.

Variable U : Util.

Lemma add_record_links ds record cmts xr level ds' :
  links_consistent ds ->
  (forall i, level = Some i -> i < length (levels ds)) ->
  _add_record U ds record cmts xr level = Ok ds' ->
  links_consistent ds' /\ length (levels ds') = length (levels ds).
Proof.
  intros Hl Hlevel H.
  destruct (get_record_type record) as [ty |] eqn:Hty;
    [| unfold _add_record in H; rewrite Hty in H; discriminate H].
  destruct ty;
    try (destruct (add_record_other U ds record cmts xr level _ ds' Hty
                     ltac:(discriminate) H)
           as (Hlv & r & Hrec & Hd & Hk);
         split; [| rewrite Hlv; reflexivity];
         apply (links_append_other ds ds' r Hl Hlv Hrec Hk);
         intros i Hi; apply Hlevel; congruence).
  unfold _add_record in H. rewrite Hty in H. cbn [bind] in H.
  apply bind_ok in H. destruct H as ([ds1 g] & Hinit & H).
  injection H as <-.
  apply GammaRecord_init_effect in Hinit.
  destruct Hinit as (Hlv & Hrec & (gf & Hk & Ho) & Hdest).
  split.
  - apply (links_append_gamma ds _ g gf level Hl); simpl; auto.
    rewrite Hrec. reflexivity.
  - simpl. rewrite Hlv.
    unfold link_gamma, update_opt.
    assert (Hu : forall (f : LevelRecord -> LevelRecord) k ls,
               length (update_nth k f ls) = length ls).
    { intros f k ls. revert k; induction ls as [| a ls IH];
        intros [| k]; simpl; auto. }
    destruct (dest_level g), level; rewrite ?Hu; reflexivity.
Qed.

Lemma close_record_links st st' :
  links_consistent (st_ds st) ->
  level_in_range st ->
  close_record U st = Ok st' ->
  links_consistent (st_ds st') /\ level_in_range st'.
Proof.
  intros Hl Hr H. unfold close_record in H.
  destruct (st_record st) as [| r0 rest] eqn:Er.
  - injection H as <-. auto.
  - apply bind_ok in H. destruct H as (c7 & _ & H).
    destruct (Ascii.eqb c7 "L").
    + apply bind_ok in H. destruct H as ([ds' lvl] & Hadd & H).
      injection H as <-.
      unfold _add_level in Hadd.
      apply bind_ok in Hadd. destruct Hadd as (l & Hinit & Hadd).
      injection Hadd as <- <-.
      apply LevelRecord_init_lists in Hinit. destruct Hinit as [Hd Hp].
      split.
      * apply (links_append_level (st_ds st) _ l Hl); auto.
      * intros i [= <-]. simpl. rewrite length_app. simpl. lia.
    + apply bind_ok in H. destruct H as (ds' & Hadd & H).
      injection H as <-.
      apply add_record_links in Hadd; [| exact Hl | exact Hr].
      destruct Hadd as [Hl' Hlen].
      split; [exact Hl' |].
      intros i Hi. simpl in *. rewrite Hlen. apply Hr. exact Hi.
Qed.

Lemma body_step_links st st' line :
  links_consistent (st_ds st) ->
  level_in_range st ->
  body_step U st line = Ok st' ->
  links_consistent (st_ds st') /\ level_in_range st'.
Proof.
  intros Hl Hr H. unfold body_step in H.
  apply bind_ok in H. destruct H as (cls & _ & H).
  destruct cls; try (injection H as <-; split; assumption).
  - apply bind_ok in H. destruct H as (st1 & Hclose & H).
    injection H as <-.
    apply close_record_links in Hclose; assumption.
  - apply bind_ok in H. destruct H as (cs & _ & H).
    injection H as <-. split; assumption.
Qed.

Lemma header_step_same st st' line :
  header_step st line = Ok st' ->
  levels (st_ds st') = levels (st_ds st)
  /\ records (st_ds st') = records (st_ds st)
  /\ st_level st' = st_level st.
Proof.
  unfold header_step. intros H.
  apply bind_ok in H. destruct H as (c6 & _ & H).
  destruct (existsb _ _); [injection H as <-; auto |].
  apply bind_ok in H. destruct H as (sig & _ & H).
  apply bind_ok in H. destruct H as (c7 & _ & H).
  destruct sig; [injection H as <-; auto |].
  destruct (Ascii.eqb c7 "X").
  { apply bind_ok in H. destruct H as (x & _ & H). injection H as <-. auto. }
  destruct (Ascii.eqb c7 "P").
  { apply bind_ok in H. destruct H as (x & _ & H). injection H as <-. auto. }
  destruct (Ascii.eqb c7 "R"); [injection H as <-; auto |].
  destruct (Ascii.eqb (Py.upper_char c7) "Q"); [injection H as <-; auto |].
  destruct (Ascii.eqb (Py.upper_char c7) "H"); injection H as <-; auto.
Qed.

Lemma parse_line_links st st' line :
  links_consistent (st_ds st) ->
  level_in_range st ->
  parse_line U st line = Ok st' ->
  links_consistent (st_ds st') /\ level_in_range st'.
Proof.
  intros Hl Hr H. unfold parse_line in H.
  apply bind_ok in H. destruct H as (st1 & H1 & H).
  assert (H1' : links_consistent (st_ds st1) /\ level_in_range st1).
  { destruct (st_header st).
    - apply header_step_same in H1. destruct H1 as (E1 & E2 & E3).
      split; [apply (links_same _ _ E1 E2 Hl) |].
      intros i Hi. rewrite E1. apply Hr. congruence.
    - injection H1 as <-. split; assumption. }
  destruct H1' as [Hl1 Hr1].
  destruct (st_header st1).
  - injection H as <-. split; assumption.
  - eapply body_step_links; eassumption.
Qed.

Lemma parse_lines_links lines :
  forall st st',
    links_consistent (st_ds st) ->
    level_in_range st ->
    parse_lines U st lines = Ok st' ->
    links_consistent (st_ds st') /\ level_in_range st'.
Proof.
  induction lines as [| line rest IH]; intros st st' Hl Hr H; simpl in H.
  - injection H as <-. split; assumption.
  - apply bind_ok in H. destruct H as (st1 & H1 & H).
    apply parse_line_links in H1; [| assumption | assumption].
    destruct H1 as [Hl1 Hr1]. eapply IH; eassumption.
Qed.

Lemma links_consistent_empty ds :
  levels ds = [] -> records ds = [] -> links_consistent ds.
Proof.
  intros Hlv Hrec. unfold links_consistent, gamma_at. rewrite Hlv, Hrec.
  repeat apply conj; intros.
  - destruct i; discriminate.
  - destruct i; discriminate.
  - destruct H as [H _]. destruct id; discriminate.
  - destruct H as [H _]. destruct id; discriminate.
  - destruct id; discriminate.
Qed.

Lemma Dataset_init_links self text ds :
  Dataset_init U self text = Ok ds -> links_consistent ds.
Proof.
  unfold Dataset_init. intros H.
  destruct (Py.split (ascii_of_nat 10) text) as [| hd rw];
    [discriminate H |].
  unfold _parse_dataset in H.
  apply bind_ok in H. destruct H as (st & Hlines & H).
  apply bind_ok in H. destruct H as (st1 & Hclose & H).
  injection H as <-.
  apply parse_lines_links in Hlines.
  - destruct Hlines as [Hl Hr].
    apply close_record_links in Hclose; [| exact Hl | exact Hr].
    destruct Hclose as [Hl1 _].
    apply (links_same (st_ds st1)); [reflexivity | reflexivity | exact Hl1].
  - apply links_consistent_empty; reflexivity.
  - intros i Hi. discriminate Hi.
Qed.

End Graph.

(** X6. The level graph of a parsed dataset is consistent in both
    directions.  The [decays] of a level are exactly the gammas whose
    [orig_level] it is, its [populating] exactly the gammas whose
    [dest_level] it is; every gamma with an originating or a destination
    level is in that level's list; and the [dest_level] of every decay
    record is a level of the dataset. *)
Theorem parsed_links_consistent (U : Util) (self : DatasetRef)
  (text : string) (ds : Dataset) :
  Dataset_init U self text = Ok ds ->
  links_consistent ds.
Proof. apply Dataset_init_links. Qed.

Lemma parsed_links_consistent_witness :
  exists ds,
    Fixture.parse
      (Fixture.unlines [Fixture.header_card; Fixture.level_0;
                        Fixture.level_1000; Fixture.gamma_near_1000]) = Ok ds
    /\ links_consistent ds.
Proof.
  eexists. split; [vm_compute; reflexivity |].
  apply (parsed_links_consistent SpecUtil.util 1
           (Fixture.unlines [Fixture.header_card; Fixture.level_0;
                             Fixture.level_1000; Fixture.gamma_near_1000])).
  vm_compute. reflexivity.
Defined.

(** ** What a resolved destination guarantees *)





(** ** Flags read from the properties *)

Lemma getitem_ok (d : dict) (k v : string) :
  getitem d k = Ok v -> dict_get d k = Some v.
Proof.
  unfold getitem. destruct (dict_get d k); [intros [= ->] | discriminate].
  reflexivity.
Qed.

Lemma question_or_S (q : string) :
  (String.eqb q "?" && String.eqb q "S")%bool = false.
Proof.
  destruct (String.eqb_spec q "?") as [-> | _]; reflexivity.
Qed.

(** X8. The flags of a level are read from its properties after the
    continuation lines were loaded: [questionable] says that property [Q]
    is [?], [expected] that it is [S], so the two are never both true, and
    [metastable] says that property [MS] begins with [M].  The same two
    flags of a gamma are read from its property [Q] in the same way. *)
Theorem flags_follow_properties (U : Util) (self : DatasetRef)
  (record : list string) (cmts : list (list string)) (xr : list string)
  (l : LevelRecord) :
  LevelRecord_init U self record cmts xr = Ok l ->
  (exists q ms,
      dict_get (prop (l_base l)) "Q" = Some q
      /\ dict_get (prop (l_base l)) "MS" = Some ms
      /\ l_questionable l = String.eqb q "?"
      /\ l_expected l = String.eqb q "S"
      /\ (l_questionable l && l_expected l)%bool = false
      /\ (metastable l = true <-> exists s, ms = String "M" s))
  /\ (forall grecord orig p gf,
        gamma_fields U grecord orig = Ok (p, gf) ->
        exists q,
          dict_get p "Q" = Some q
          /\ g_questionable gf = String.eqb q "?"
          /\ g_expected gf = String.eqb q "S"
          /\ (g_questionable gf && g_expected gf)%bool = false).
Proof.
  intros H. split.
  - unfold LevelRecord_init in H. inv_bind H. injection H as <-. simpl.
    repeat match goal with
           | E : getitem _ _ = Ok _ |- _ => apply getitem_ok in E
           end.
    do 2 eexists.
    split; [eassumption |]. split; [eassumption |].
    split; [reflexivity |]. split; [reflexivity |].
    split; [apply question_or_S |].
    match goal with
    | |- match ?m with "" => _ | String _ _ => _ end = _ <-> _ =>
        destruct m as [| c m']
    end.
    + split; [discriminate | intros (s & Hs); discriminate Hs].
    + rewrite Ascii.eqb_eq. split.
      * intros ->. exists m'. reflexivity.
      * intros (s & [= -> _]). reflexivity.
  - clear H. intros grecord orig p gf H.
    unfold gamma_fields in H. inv_bind H. injection H as <- <-. simpl.
    repeat match goal with
           | E : getitem _ _ = Ok _ |- _ => apply getitem_ok in E
           end.
    eexists. split; [eassumption |].
    repeat apply conj; try reflexivity. apply question_or_S.
Qed.

Lemma flags_follow_properties_witness :
  exists l q ms,
    LevelRecord_init SpecUtil.util 1 [Cards.level_meta] [] [] = Ok l
    /\ dict_get (prop (l_base l)) "Q" = Some q
    /\ dict_get (prop (l_base l)) "MS" = Some ms
    /\ (metastable l = true <-> exists s, ms = String "M" s).
Proof.
  destruct (LevelRecord_init SpecUtil.util 1 [Cards.level_meta] [] [])
    as [l | e] eqn:E; [| vm_compute in E; discriminate E].
  destruct (flags_follow_properties SpecUtil.util 1 [Cards.level_meta] [] []
              l E) as ((q & ms & H1 & H2 & _ & _ & _ & H6) & _).
  exists l, q, ms. auto.
Defined.

(** ** Prompt and delayed particles *)

Lemma particle_type_column (record : list string) (line : string)
  (rest : list string) :
  record = line :: rest ->
  get_record_type record = Ok TParticle ->
  String.get 7 line = Some " "%char \/ String.get 7 line = Some "D"%char.
Proof.
  intros -> H. unfold get_record_type in H. cbn [seq_item0 bind] in H.
  unfold Py.index in H.
  destruct (String.get 7 line) as [c7 |]; [| discriminate H].
  cbn [bind] in H.
  repeat match type of H with
         | (if Ascii.eqb c7 ?x then _ else _) = _ =>
             destruct (Ascii.eqb c7 x); [discriminate H |]
         end.
  destruct (Py.mem_char c7 " D") eqn:E; [| discriminate H].
  simpl in E. rewrite !orb_true_iff, !Ascii.eqb_eq in E.
  destruct E as [-> | [-> | E]]; auto. discriminate E.
Qed.

(** X9. A particle record never is both prompt and delayed.  One that has
    no continuation line is exactly one of the two: prompt when column 7 of
    its line is blank, delayed when it holds [D]. *)
Theorem particle_prompt_or_delayed (self : DatasetRef) (line : string)
  (cmts : list (list string)) (xr : list string) (dest : option nat)
  (r : DecayRecord) :
  get_record_type [line] = Ok TParticle ->
  ParticleRecord_init self [line] cmts xr dest = Ok r ->
  (exists a b,
      d_kind r = Particle a b
      /\ xorb a b = true
      /\ (a = true <-> String.get 7 line = Some " "%char))
  /\ (forall record r',
        ParticleRecord_init self record cmts xr dest = Ok r' ->
        exists a b, d_kind r' = Particle a b /\ (a && b)%bool = false).
Proof.
  intros Hty H. split.
  - unfold ParticleRecord_init in H. cbn [seq_item0 bind] in H.
    destruct (particle_type_column [line] line [] eq_refl Hty) as [H7 | H7];
      rewrite (index_get _ _ _ H7) in H; cbn [bind] in H;
      inv_bind H; injection H as <-;
      match goal with
      | E : load_prop _ (tl [line]) = Ok _ |- _ =>
          simpl in E; injection E as <-
      end;
      match goal with
      | E : getitem _ "D" = Ok _ |- _ => cbn in E; injection E as <-
      end;
      simpl; do 2 eexists;
      (split; [reflexivity |]); (split; [reflexivity |]).
    + split; [intros _; exact H7 | reflexivity].
    + split; [discriminate | rewrite H7; discriminate].
  - clear. intros record r' H.
    unfold ParticleRecord_init in H. inv_bind H. injection H as <-. simpl.
    do 2 eexists. split; [reflexivity |].
    match goal with
    | |- (String.eqb ?d " " && _)%bool = false =>
        destruct (String.eqb_spec d " ") as [-> | _]; reflexivity
    end.
Qed.

Lemma particle_prompt_or_delayed_witness :
  exists r a b,
    ParticleRecord_init 1 [Cards.proton_delayed] [] [] None = Ok r
    /\ d_kind r = Particle a b
    /\ xorb a b = true.
Proof.
  destruct (ParticleRecord_init 1 [Cards.proton_delayed] [] [] None)
    as [r | e] eqn:E; [| vm_compute in E; discriminate E].
  destruct (particle_prompt_or_delayed 1 Cards.proton_delayed [] [] None r
              eq_refl E) as ((a & b & H1 & H2 & _) & _).
  exists r, a, b. auto.
Defined.

(** ** Isomers *)

Lemma filtered_positions_sorted {A : Type} (f : nat * A -> bool) (l : list A) :
  forall s,
    StronglySorted lt (map fst (filter f (combine (seq s (length l)) l)))
    /\ Forall (fun i => s <= i)
         (map fst (filter f (combine (seq s (length l)) l))).
Proof.
  induction l as [| a l IH]; intros s; simpl.
  - split; constructor.
  - destruct (IH (S s)) as [Hs Hf].
    assert (Hf' : Forall (fun i => s <= i)
                    (map fst (filter f (combine (seq (S s) (length l)) l)))).
    { eapply Forall_impl; [| exact Hf]. simpl. intros; lia. }
    destruct (f (s, a)); simpl.
    + split.
      * constructor; [exact Hs |].
        eapply Forall_impl; [| exact Hf]. simpl. intros; lia.
      * constructor; [lia | exact Hf'].
    + split; assumption.
Qed.

(** X10. [get_isomers] raises [IndexError] on a dataset without levels.
    Otherwise it yields the first level, whether metastable or not, and
    then exactly the metastable levels among the others, each once and in
    the order of the dataset. *)
Theorem isomers_are_ground_and_metastable (ds : Dataset) :
  (levels ds = [] -> get_isomers ds = Raise IndexError)
  /\ (levels ds <> [] ->
      exists rest,
        get_isomers ds = Ok (0 :: rest)
        /\ StronglySorted lt (0 :: rest)
        /\ forall i,
            In i rest
            <-> 1 <= i
                /\ exists l, nth_error (levels ds) i = Some l
                             /\ metastable l = true).
Proof.
  unfold get_isomers. split.
  - intros ->. reflexivity.
  - intros Hne. destruct (levels ds) as [| l0 rest]; [contradiction |].
    eexists. split; [reflexivity |].
    destruct (filtered_positions_sorted (fun il => metastable (snd il)) rest 1)
      as [Hs Hf].
    split.
    + constructor; [exact Hs |].
      eapply Forall_impl; [| exact Hf]. simpl. intros; lia.
    + intros i. rewrite in_map_iff. split.
      * intros ([j l] & <- & Hin). simpl.
        apply filter_In in Hin. destruct Hin as [Hin Hm].
        apply In_combine_seq in Hin. destruct Hin as [Hle Hn].
        split; [exact Hle |]. exists l. split; [| exact Hm].
        destruct j as [| j]; [lia |]. simpl in *.
        rewrite Nat.sub_0_r in Hn. exact Hn.
      * intros (Hle & l & Hn & Hm).
        exists (i, l). split; [reflexivity |].
        apply filter_In. split; [| exact Hm].
        apply In_combine_seq. split; [exact Hle |].
        destruct i as [| i]; [lia |]. simpl in *.
        rewrite Nat.sub_0_r. exact Hn.
Qed.

(** ** Continuation lines without content *)

Lemma lstrip_blank (s : string) :
  all_chars Py.is_space s = true -> Py.lstrip s = "".
Proof.
  induction s as [| c s IH]; simpl; [reflexivity |].
  intros H. apply andb_true_iff in H. destruct H as [Hc Hs].
  rewrite Hc. apply IH. exact Hs.
Qed.

Lemma strip_blank (s : string) :
  all_chars Py.is_space s = true -> Py.strip s = "".
Proof. intros H. unfold Py.strip. rewrite (lstrip_blank s H). reflexivity. Qed.

Lemma split_once_blank (s a b : string) :
  Py.split_once "$" s = Some (a, b) ->
  all_chars blank_or_dollar s = true ->
  all_chars Py.is_space a = true
  /\ all_chars blank_or_dollar b = true
  /\ String.length b < String.length s.
Proof.
  revert a b; induction s as [| c s IH]; simpl; intros a b H Hall;
    [discriminate H |].
  apply andb_true_iff in Hall. destruct Hall as [Hc Hs].
  destruct (Ascii.eqb c "$") eqn:Ec.
  - injection H as <- <-. repeat split; auto.
  - destruct (Py.split_once "$" s) as [[a' b'] |]; [| discriminate H].
    injection H as <- <-.
    destruct (IH a' b' eq_refl Hs) as (Ha & Hb & Hlen).
    unfold blank_or_dollar in Hc. rewrite Ec, orb_false_r in Hc.
    simpl. rewrite Hc, Ha. repeat split; auto.
Qed.

Lemma split_once_none_blank (s : string) :
  Py.split_once "$" s = None ->
  all_chars blank_or_dollar s = true ->
  all_chars Py.is_space s = true.
Proof.
  induction s as [| c s IH]; simpl; intros H Hall; [reflexivity |].
  apply andb_true_iff in Hall. destruct Hall as [Hc Hs].
  destruct (Ascii.eqb c "$") eqn:Ec; [discriminate H |].
  destruct (Py.split_once "$" s) as [[a' b'] |]; [discriminate H |].
  unfold blank_or_dollar in Hc. rewrite Ec, orb_false_r in Hc.
  rewrite Hc. apply IH; auto.
Qed.

Lemma split_max_blank (n : nat) :
  forall s,
    String.length s <= n ->
    all_chars blank_or_dollar s = true ->
    Forall (fun e => all_chars Py.is_space e = true) (Py.split_max "$" n s).
Proof.
  induction n as [| n IH]; intros s Hlen Hall.
  - destruct s; [| simpl in Hlen; lia]. repeat constructor.
  - simpl. destruct (Py.split_once "$" s) as [[a b] |] eqn:E.
    + destruct (split_once_blank s a b E Hall) as (Ha & Hb & Hl).
      constructor; [exact Ha |]. apply IH; [lia | exact Hb].
    + constructor; [| constructor].
      apply split_once_none_blank; assumption.
Qed.

Lemma load_prop_entries_blank (p : dict) (entries : list string) :
  Forall (fun e => all_chars Py.is_space e = true) entries ->
  load_prop_entries p entries = Ok (p, Continue).
Proof.
  induction 1 as [| e es He Hes IH]; simpl; [reflexivity |].
  unfold load_prop_entry. rewrite (strip_blank e He). simpl. exact IH.
Qed.

(** X11. Continuation lines that hold nothing from column 9 on but
    whitespace and [$] (lines of nine characters or fewer among them) are
    passed over: [load_prop] does not raise and leaves the properties as
    they were. *)
Theorem blank_continuations_change_nothing (p : dict) (lines : list string) :
  Forall (fun line =>
            all_chars blank_or_dollar (Py.slice_from line 9) = true) lines ->
  load_prop p lines = Ok p.
Proof.
  intros H. unfold load_prop.
  assert (Hl : load_prop_lines p lines = Ok (p, Continue)).
  { induction H as [| line rest Hline Hrest IH]; simpl; [reflexivity |].
    rewrite load_prop_entries_blank.
    - simpl. exact IH.
    - apply split_max_blank; [lia | exact Hline]. }
  rewrite Hl. reflexivity.
Qed.

Lemma blank_continuations_change_nothing_witness :
  load_prop [("E", "0")] [Fixture.card " 60NI 2L $ $"; "short"; ""]
  = Ok [("E", "0")].
Proof.
  apply (blank_continuations_change_nothing [("E", "0")]
           [Fixture.card " 60NI 2L $ $"; "short"; ""]).
  repeat constructor.
Defined.

(** ** The only exception of [load_prop] *)

Lemma split_once_mem (c : ascii) (s : string) :
  Py.mem_char c s = true -> exists a b, Py.split_once c s = Some (a, b).
Proof.
  induction s as [| d s IH]; simpl; [discriminate |].
  rewrite Ascii.eqb_sym. destruct (Ascii.eqb d c); simpl.
  - intros _. eexists. eexists. reflexivity.
  - intros H. destruct (IH H) as (a & b & ->). eexists. eexists. reflexivity.
Qed.

Lemma split_once_some_mem (c : ascii) (s a b : string) :
  Py.split_once c s = Some (a, b) -> Py.mem_char c s = true.
Proof.
  revert a b; induction s as [| d s IH]; simpl; intros a b H;
    [discriminate H |].
  rewrite Ascii.eqb_sym. destruct (Ascii.eqb d c); [reflexivity |].
  destruct (Py.split_once c s) as [[a' b'] |]; [| discriminate H].
  simpl. eapply IH. reflexivity.
Qed.

Lemma split_max_1_mem (c : ascii) (s : string) :
  Py.mem_char c s = true -> exists a b, Py.split_max c 1 s = [a; b].
Proof.
  intros H. destruct (split_once_mem c s H) as (a & b & E).
  exists a, b. simpl. rewrite E. reflexivity.
Qed.

Lemma first_symb_mem (symbs : list ascii) (e : string) (symb : ascii) :
  first_symb symbs e = Some symb -> Py.mem_char symb e = true.
Proof.
  induction symbs as [| s symbs IH]; simpl; [discriminate |].
  destruct (Py.mem_char s e) eqn:E; [intros [= <-]; exact E | exact IH].
Qed.

Lemma first_abbr_contains (abbrs : list string) (e abbr : string) :
  first_abbr abbrs e = Some abbr ->
  Py.contains (" " ++ abbr ++ " ") e = true.
Proof.
  induction abbrs as [| a abbrs IH]; simpl; [discriminate |].
  destruct (Py.contains (String " " (a ++ " ")) e) eqn:E;
    [intros [= <-]; exact E | exact IH].
Qed.

Lemma prefix_cons (c d : ascii) (s r : string) :
  prefix (String c s) (String d r) = true -> c = d /\ prefix s r = true.
Proof.
  simpl. destruct (ascii_dec c d) as [-> | _]; [auto | discriminate].
Qed.

Lemma prefix_space_mem (x r : string) :
  prefix (x ++ " ") r = true -> Py.mem_char " " r = true.
Proof.
  revert r; induction x as [| c x IH]; intros [| d r] H;
    try discriminate H.
  - apply prefix_cons in H. destruct H as [<- _]. reflexivity.
  - simpl in H. destruct (ascii_dec c d) as [-> | _]; [| discriminate H].
    simpl. rewrite (IH r H). apply orb_true_r.
Qed.

(** An entry that holds a code between two spaces splits in three. *)
Lemma split_max_2_spaces (x e : string) :
  Py.contains (String " " (x ++ " ")) e = true ->
  exists t1 t2 v, Py.split_max " " 2 e = [t1; t2; v].
Proof.
  intros H.
  assert (H2 : exists a b, Py.split_once " " e = Some (a, b)
                           /\ Py.mem_char " " b = true).
  { induction e as [| c e IH]; [discriminate H |].
    cbn [Py.contains] in H. apply orb_true_iff in H.
    destruct H as [H | H].
    - apply prefix_cons in H. destruct H as [<- H].
      exists "", e. split; [reflexivity |].
      apply (prefix_space_mem x e H).
    - destruct (IH H) as (a & b & E & Hb).
      simpl. destruct (Ascii.eqb c " ").
      + exists "", e. split; [reflexivity |].
        apply (split_once_some_mem _ _ _ _ E).
      + rewrite E. exists (String c a), b. split; [reflexivity | exact Hb]. }
  destruct H2 as (a & b & E & Hb).
  destruct (split_max_1_mem " " b Hb) as (t2 & v & E2).
  exists a, t2, v.
  change (Py.split_max " " 2 e)
    with (match Py.split_once " " e with
          | None => [e]
          | Some (a0, b0) => a0 :: Py.split_max " " 1 b0
          end).
  rewrite E, E2. reflexivity.
Qed.

Lemma last_char_nonempty (s : string) :
  s <> "" -> exists c, Py.last_char s = Ok c.
Proof.
  induction s as [| c s IH]; [intros H; contradiction H; reflexivity |].
  intros _. destruct s as [| d s]; [exists c; reflexivity |].
  destruct IH as (c' & Hc'); [discriminate |].
  exists c'. exact Hc'.
Qed.

Lemma load_prop_entry_raise (p : dict) (raw_entry : string) (e : exn) :
  load_prop_entry p raw_entry = Raise e ->
  e = ValueError /\ fits_no_rule (Py.strip raw_entry).
Proof.
  unfold load_prop_entry, fits_no_rule.
  destruct (String.eqb_spec (Py.strip raw_entry) "") as [_ | Hne];
    [discriminate |].
  destruct (Py.mem_char "=" (Py.strip raw_entry)) eqn:Eeq.
  { destruct (split_max_1_mem _ _ Eeq) as (a & b & ->). discriminate. }
  destruct (first_symb ["<"; ">"]%char (Py.strip raw_entry)) as [symb |] eqn:Es.
  { apply first_symb_mem in Es.
    destruct (split_max_1_mem _ _ Es) as (a & b & ->). discriminate. }
  destruct (first_abbr abbreviations (Py.strip raw_entry)) as [abbr |] eqn:Ea.
  { apply first_abbr_contains in Ea.
    destruct (split_max_2_spaces _ _ Ea) as (t1 & t2 & v & ->). discriminate. }
  destruct (last_char_nonempty _ Hne) as (c & ->). cbn [bind].
  destruct (Ascii.eqb_spec c "?") as [-> | Hc]; [discriminate |].
  intros [= <-]. repeat split; auto.
  intros [= ->]. contradiction Hc. reflexivity.
Qed.

Lemma load_prop_entries_raise (entries : list string) :
  forall p e, load_prop_entries p entries = Raise e -> e = ValueError.
Proof.
  induction entries as [| x rest IH]; intros p e H; simpl in H;
    [discriminate H |].
  destruct (load_prop_entry p x) as [[p' fl] | e'] eqn:E.
  - cbn [bind] in H. destruct fl; [eapply IH; exact H | discriminate H].
  - cbn [bind] in H. injection H as <-.
    apply (load_prop_entry_raise _ _ _ E).
Qed.

(** X12. [load_prop] raises nothing but [ValueError], and it raises it on
    an entry exactly when the stripped entry is not empty and fits none of
    the four rules: it holds no [=], no [<] or [>], no abbreviation code
    between spaces, and does not end in [?].  In particular the unpacking
    of the split entry in the first three rules never fails. *)
Theorem load_prop_raises_only_ValueError :
  (forall p raw_entry e,
      load_prop_entry p raw_entry = Raise e ->
      e = ValueError /\ fits_no_rule (Py.strip raw_entry))
  /\ (forall p raw_entry,
        fits_no_rule (Py.strip raw_entry) ->
        load_prop_entry p raw_entry = Raise ValueError)
  /\ (forall p lines e, load_prop p lines = Raise e -> e = ValueError)
  /\ load_prop [] [Fixture.card " 60NI 2G FOO"] = Raise ValueError.
Proof.
  split; [exact load_prop_entry_raise |].
  split; [| split; [| reflexivity]].
  - intros p raw_entry (Hne & Heq & Hs & Ha & Hl).
    unfold load_prop_entry.
    destruct (String.eqb_spec (Py.strip raw_entry) "") as [E | _];
      [contradiction |].
    rewrite Heq, Hs, Ha.
    destruct (last_char_nonempty _ Hne) as (c & Hc). rewrite Hc. cbn [bind].
    destruct (Ascii.eqb_spec c "?") as [-> | _]; [contradiction | reflexivity].
  - intros p lines e H. unfold load_prop in H.
    destruct (load_prop_lines p lines) as [[p' fl] | e'] eqn:E;
      [discriminate H |].
    cbn [bind] in H. injection H as <-.
    revert p E. induction lines as [| line rest IH]; intros p E; simpl in E;
      [discriminate E |].
    destruct (load_prop_entries p (Py.split "$" (Py.slice_from line 9)))
      as [[p1 fl] | e1] eqn:E1; cbn [bind] in E.
    + destruct fl; [eapply IH; exact E | discriminate E].
    + injection E as <-. apply (load_prop_entries_raise _ _ _ E1).
Qed.

(** ** Entries made of solid characters *)

Lemma all_chars_app (f : ascii -> bool) (a b : string) :
  all_chars f (a ++ b) = (all_chars f a && all_chars f b)%bool.
Proof.
  induction a as [| c a IH]; simpl; [reflexivity |].
  rewrite IH. apply andb_assoc.
Qed.

Lemma mem_char_app (c : ascii) (a b : string) :
  Py.mem_char c (a ++ b) = (Py.mem_char c a || Py.mem_char c b)%bool.
Proof.
  induction a as [| d a IH]; simpl; [reflexivity |].
  rewrite IH. apply orb_assoc.
Qed.

Lemma solid_not_mem (c : ascii) (s : string) :
  solid c = false -> all_chars solid s = true -> Py.mem_char c s = false.
Proof.
  intros Hc. induction s as [| d s IH]; simpl; [reflexivity |].
  intros H. apply andb_true_iff in H. destruct H as [Hd Hs].
  rewrite (IH Hs), orb_false_r.
  destruct (Ascii.eqb_spec c d) as [-> | _]; [congruence | reflexivity].
Qed.

Lemma rstrip_solid (s : string) :
  all_chars solid s = true -> Py.rstrip s = s.
Proof.
  induction s as [| c s IH]; simpl; [reflexivity |].
  intros H. apply andb_true_iff in H. destruct H as [Hc Hs].
  rewrite (IH Hs).
  unfold solid in Hc. apply andb_true_iff in Hc. destruct Hc as [Hc _].
  apply negb_true_iff in Hc. rewrite Hc.
  destruct s; reflexivity.
Qed.

Lemma strip_solid (s : string) :
  all_chars solid s = true -> Py.strip s = s.
Proof.
  intros H. unfold Py.strip.
  assert (Hl : Py.lstrip s = s).
  { destruct s as [| c s]; [reflexivity |]. simpl in *.
    apply andb_true_iff in H. destruct H as [Hc _].
    unfold solid in Hc. apply andb_true_iff in Hc. destruct Hc as [Hc _].
    apply negb_true_iff in Hc. rewrite Hc. reflexivity. }
  rewrite Hl. apply rstrip_solid. exact H.
Qed.

Lemma slice_from_app (pre s : string) :
  Py.slice_from (pre ++ s) (String.length pre) = s.
Proof.
  induction pre as [| c pre IH]; simpl; [destruct s; reflexivity | exact IH].
Qed.

Lemma contains_first_char (c : ascii) (sub s : string) :
  Py.contains (String c sub) s = true -> Py.mem_char c s = true.
Proof.
  induction s as [| d s IH]; [discriminate |].
  cbn [Py.contains]. intros H. apply orb_true_iff in H.
  destruct H as [H | H].
  - apply prefix_cons in H. destruct H as [<- _].
    simpl. rewrite Ascii.eqb_refl. reflexivity.
  - simpl. rewrite (IH H). apply orb_true_r.
Qed.

Lemma first_abbr_no_space (abbrs : list string) (e : string) :
  Py.mem_char " " e = false -> first_abbr abbrs e = None.
Proof.
  intros H. induction abbrs as [| a abbrs IH]; simpl; [reflexivity |].
  destruct (Py.contains (String " " (a ++ " ")) e) eqn:E; [| exact IH].
  apply contains_first_char in E. congruence.
Qed.

Lemma last_char_snoc (s : string) (c : ascii) :
  Py.last_char (s ++ String c "") = Ok c
  /\ Py.drop_last (s ++ String c "") = s.
Proof.
  induction s as [| d s [IH1 IH2]]; simpl; [split; reflexivity |].
  rewrite IH1, IH2. destruct (s ++ String c "")%string eqn:E.
  - destruct s; discriminate E.
  - split; reflexivity.
Qed.

Lemma dict_get_set_same (d : dict) (k v : string) :
  dict_get (dict_set d k v) k = Some v.
Proof.
  induction d as [| [k' v'] d IH]; simpl.
  - rewrite String.eqb_refl. reflexivity.
  - destruct (String.eqb k k') eqn:E; simpl.
    + rewrite String.eqb_refl. reflexivity.
    + rewrite E. exact IH.
Qed.

Lemma dict_get_set_other (d : dict) (k k2 v : string) :
  k2 <> k -> dict_get (dict_set d k v) k2 = dict_get d k2.
Proof.
  intros Hne. induction d as [| [k' v'] d IH]; simpl.
  - destruct (String.eqb_spec k2 k); [contradiction | reflexivity].
  - destruct (String.eqb_spec k k') as [-> | Hk]; simpl.
    + destruct (String.eqb_spec k2 k'); [contradiction | reflexivity].
    + destruct (String.eqb k2 k'); [reflexivity | exact IH].
Qed.

(** X13. A continuation line whose text from column 9 on is [k=v], with [k]
    and [v] free of whitespace and [$] and [k] free of [=], stores [v]
    under [k], leaves the other keys as they were, and [load_prop] goes on
    with the lines that follow. *)
Theorem assignment_entry_stored (p : dict) (pre k v : string)
  (rest : list string) :
  String.length pre = 9 ->
  all_chars solid k = true ->
  Py.mem_char "=" k = false ->
  all_chars solid v = true ->
  load_prop p ((pre ++ k ++ "=" ++ v)%string :: rest)
  = load_prop (dict_set p k v) rest
  /\ dict_get (dict_set p k v) k = Some v
  /\ forall k2, k2 <> k -> dict_get (dict_set p k v) k2 = dict_get p k2.
Proof.
  intros Hpre Hk Hkeq Hv.
  split; [| split; [apply dict_get_set_same |
                    intros k2 H2; apply dict_get_set_other; exact H2]].
  change (k ++ "=" ++ v)%string with (k ++ String "=" v)%string.
  assert (Hsolid : all_chars solid (k ++ String "=" v) = true).
  { rewrite all_chars_app. simpl. rewrite Hk, Hv. reflexivity. }
  unfold load_prop. cbn [load_prop_lines].
  rewrite <- Hpre, slice_from_app.
  unfold Py.split.
  rewrite (split_max_no_sep "$"%char _ _
             (solid_not_mem "$"%char _ eq_refl Hsolid)).
  cbn [load_prop_entries]. unfold load_prop_entry.
  rewrite (strip_solid _ Hsolid).
  destruct (String.eqb_spec (k ++ String "=" v) "") as [E | _];
    [destruct k; discriminate E |].
  rewrite mem_char_app. cbn [Py.mem_char].
  rewrite Ascii.eqb_refl, orb_true_r.
  cbn [Py.split_max].
  rewrite (split_once_app_none "="%char k v (split_once_none _ _ Hkeq)).
  rewrite (strip_solid _ Hk), (strip_solid _ Hv).
  reflexivity.
Qed.

Lemma assignment_entry_stored_witness :
  load_prop [] [" 60NI 2G FL=1332.5"; " 60NI 3G BE2W=12"]
  = load_prop (dict_set [] "FL" "1332.5") [" 60NI 3G BE2W=12"].
Proof.
  apply (assignment_entry_stored [] " 60NI 2G " "FL" "1332.5"
           [" 60NI 3G BE2W=12"]); reflexivity.
Defined.

(** X14. A continuation line whose text from column 9 on is [q?], with [q]
    free of whitespace, [$], [=], [<] and [>], stores [?] under [q], and
    [load_prop] returns at once: the lines that follow are not read, not
    even to reject a malformed entry. *)
Theorem uncertain_entry_ends_load_prop (p : dict) (pre q : string)
  (rest : list string) :
  String.length pre = 9 ->
  all_chars solid q = true ->
  Py.mem_char "=" q = false ->
  Py.mem_char "<" q = false ->
  Py.mem_char ">" q = false ->
  load_prop p ((pre ++ q ++ "?")%string :: rest) = Ok (dict_set p q "?").
Proof.
  intros Hpre Hq Heq Hlt Hgt.
  assert (Hsolid : all_chars solid (q ++ "?") = true).
  { rewrite all_chars_app. simpl. rewrite Hq. reflexivity. }
  assert (Hm : Py.mem_char "=" (q ++ "?") = false)
    by (rewrite mem_char_app, Heq; reflexivity).
  assert (Hs : first_symb ["<"; ">"]%char (q ++ "?") = None)
    by (unfold first_symb; rewrite !mem_char_app, Hlt, Hgt; reflexivity).
  unfold load_prop. cbn [load_prop_lines].
  rewrite <- Hpre, slice_from_app.
  unfold Py.split.
  rewrite (split_max_no_sep "$"%char _ _
             (solid_not_mem "$"%char _ eq_refl Hsolid)).
  cbn [load_prop_entries]. unfold load_prop_entry.
  rewrite (strip_solid _ Hsolid).
  destruct (String.eqb_spec (q ++ "?") "") as [E | _];
    [destruct q; discriminate E |].
  rewrite Hm, Hs.
  rewrite (first_abbr_no_space abbreviations (q ++ "?")
             (solid_not_mem " "%char _ eq_refl Hsolid)).
  destruct (last_char_snoc q "?") as [-> ->]. reflexivity.
Qed.

Lemma uncertain_entry_ends_load_prop_witness :
  load_prop [] [" 60NI 2G FL?"; " 60NI 3G FOO"] = Ok [("FL", "?")].
Proof.
  apply (uncertain_entry_ends_load_prop [] " 60NI 2G " "FL"
           [" 60NI 3G FOO"]); reflexivity.
Defined.

(** ** Later lines only add *)

Lemma level_grows_refl (l : LevelRecord) : level_grows l l.
Proof.
  repeat split; exists []; rewrite app_nil_r; reflexivity.
Qed.

Lemma level_grows_trans (l1 l2 l3 : LevelRecord) :
  level_grows l1 l2 -> level_grows l2 l3 -> level_grows l1 l3.
Proof.
  intros (C1 & (d1 & D1) & (q1 & Q1)) (C2 & (d2 & D2) & (q2 & Q2)).
  repeat split.
  - congruence.
  - exists (d1 ++ d2). rewrite D2, D1, app_assoc. reflexivity.
  - exists (q1 ++ q2). rewrite Q2, Q1, app_assoc. reflexivity.
Qed.

Lemma dataset_grows_refl (ds : Dataset) : dataset_grows ds ds.
Proof.
  split.
  - exists []. rewrite app_nil_r. reflexivity.
  - intros i l H. exists l. split; [exact H | apply level_grows_refl].
Qed.

Lemma dataset_grows_trans (d1 d2 d3 : Dataset) :
  dataset_grows d1 d2 -> dataset_grows d2 d3 -> dataset_grows d1 d3.
Proof.
  intros [(n1 & R1) L1] [(n2 & R2) L2]. split.
  - exists (n1 ++ n2). rewrite R2, R1, app_assoc. reflexivity.
  - intros i l H.
    destruct (L1 i l H) as (l2 & H2 & G2).
    destruct (L2 i l2 H2) as (l3 & H3 & G3).
    exists l3. split; [exact H3 | eapply level_grows_trans; eassumption].
Qed.

Lemma dataset_grows_same (ds ds' : Dataset) :
  levels ds' = levels ds -> records ds' = records ds -> dataset_grows ds ds'.
Proof.
  intros Hl Hr. unfold dataset_grows. rewrite Hl, Hr.
  apply dataset_grows_refl.
Qed.

Lemma link_gamma_grows (id : nat) (orig dest : option nat)
  (ls : list LevelRecord) (j : nat) (l : LevelRecord) :
  nth_error ls j = Some l ->
  exists l', nth_error (link_gamma id orig dest ls) j = Some l'
             /\ level_grows l l'.
Proof.
  intros H. unfold link_gamma.
  rewrite !nth_error_update_opt, H. simpl.
  eexists. split; [reflexivity |].
  destruct (is_level dest j), (is_level orig j); repeat split; simpl;
    try (exists []; rewrite app_nil_r; reflexivity);
    eexists; reflexivity.
Qed.

Section Growth.

Variable U : Util.

Lemma add_record_grows ds record cmts xr level ds' :
  _add_record U ds record cmts xr level = Ok ds' -> dataset_grows ds ds'.
Proof.
  intros H.
  destruct (get_record_type record) as [ty |] eqn:Hty;
    [| unfold _add_record in H; rewrite Hty in H; discriminate H].
  destruct ty;
    try (destruct (add_record_other U ds record cmts xr level _ ds' Hty
                     ltac:(discriminate) H)
           as (Hlv & r & Hrec & _);
         split; [exists [r]; exact Hrec |];
         intros i l Hi; rewrite Hlv; exists l;
         split; [exact Hi | apply level_grows_refl]).
  unfold _add_record in H. rewrite Hty in H. cbn [bind] in H.
  apply bind_ok in H. destruct H as ([ds1 g] & Hinit & H).
  injection H as <-.
  apply GammaRecord_init_effect in Hinit.
  destruct Hinit as (Hlv & Hrec & _).
  split.
  - exists [g]. simpl. rewrite Hrec. reflexivity.
  - intros i l Hi. simpl. rewrite Hlv. apply link_gamma_grows. exact Hi.
Qed.

Lemma close_record_grows st st' :
  close_record U st = Ok st' -> dataset_grows (st_ds st) (st_ds st').
Proof.
  intros H. unfold close_record in H.
  destruct (st_record st) as [| r0 rest].
  - injection H as <-. apply dataset_grows_refl.
  - apply bind_ok in H. destruct H as (c7 & _ & H).
    destruct (Ascii.eqb c7 "L").
    + apply bind_ok in H. destruct H as ([ds' lvl] & Hadd & H).
      injection H as <-. simpl.
      unfold _add_level in Hadd.
      apply bind_ok in Hadd. destruct Hadd as (l & _ & Hadd).
      injection Hadd as <- _.
      split.
      * exists []. simpl. rewrite app_nil_r. reflexivity.
      * intros i l0 Hi. exists l0. simpl.
        split; [apply nth_error_snoc_old; exact Hi | apply level_grows_refl].
    + apply bind_ok in H. destruct H as (ds' & Hadd & H).
      injection H as <-. simpl.
      eapply add_record_grows. exact Hadd.
Qed.

Lemma parse_line_grows st st' line :
  parse_line U st line = Ok st' -> dataset_grows (st_ds st) (st_ds st').
Proof.
  intros H. unfold parse_line in H.
  apply bind_ok in H. destruct H as (st1 & H1 & H).
  assert (G1 : dataset_grows (st_ds st) (st_ds st1)).
  { destruct (st_header st).
    - apply header_step_same in H1. destruct H1 as (E1 & E2 & _).
      apply dataset_grows_same; assumption.
    - injection H1 as <-. apply dataset_grows_refl. }
  apply (dataset_grows_trans _ _ _ G1).
  destruct (st_header st1); [injection H as <-; apply dataset_grows_refl |].
  unfold body_step in H.
  apply bind_ok in H. destruct H as (cls & _ & H).
  destruct cls; try (injection H as <-; apply dataset_grows_refl).
  - apply bind_ok in H. destruct H as (st2 & Hclose & H).
    injection H as <-. simpl. apply close_record_grows. exact Hclose.
  - apply bind_ok in H. destruct H as (cs & _ & H).
    injection H as <-. apply dataset_grows_refl.
Qed.

Lemma parse_lines_grows lines :
  forall st st',
    parse_lines U st lines = Ok st' -> dataset_grows (st_ds st) (st_ds st').
Proof.
  induction lines as [| line rest IH]; intros st st' H; simpl in H.
  - injection H as <-. apply dataset_grows_refl.
  - apply bind_ok in H. destruct H as (st1 & H1 & H).
    eapply dataset_grows_trans;
      [eapply parse_line_grows; exact H1 | eapply IH; exact H].
Qed.

End Growth.

(** X15. Further lines only add to a dataset.  After any number of lines
    the records so far are still there, unchanged and in their places,
    followed by the new ones; every level so far is still in its place with
    the same properties, energy, half-life and flags, and its [decays] and
    [populating] lists have only been extended at the end. *)
Theorem parsing_only_adds (U : Util) (lines : list string)
  (st st' : pstate) :
  parse_lines U st lines = Ok st' ->
  (exists new, records (st_ds st') = records (st_ds st) ++ new)
  /\ forall i l,
      nth_error (levels (st_ds st)) i = Some l ->
      exists l',
        nth_error (levels (st_ds st')) i = Some l'
        /\ level_core l' = level_core l
        /\ (exists d, decays l' = decays l ++ d)
        /\ (exists q, populating l' = populating l ++ q).
Proof. apply parse_lines_grows. Qed.

Lemma parsing_only_adds_witness :
  exists st',
    parse_lines SpecUtil.util
      {| st_ds := Fixture.two_levels; st_comments := [];
         st_record := [Fixture.gamma_near_1000]; st_xref := [];
         st_level := Some 1; st_history := ""; st_header := false |}
      [Fixture.level_0] = Ok st'
    /\ exists new, records (st_ds st') = records Fixture.two_levels ++ new.
Proof.
  eexists. split; [vm_compute; reflexivity |].
  apply (parsing_only_adds SpecUtil.util [Fixture.level_0]
           {| st_ds := Fixture.two_levels; st_comments := [];
              st_record := [Fixture.gamma_near_1000]; st_xref := [];
              st_level := Some 1; st_history := ""; st_header := false |}).
  vm_compute. reflexivity.
Defined.

(** ** Record types that [_add_record] cannot build *)

(** X16. [get_record_type] resolves a record whose first line has [X], [Q]
    or [L] in column 7 to the cross-reference, Q-value or level class, none
    of which takes the five arguments [_add_record] passes: [_add_record]
    raises [TypeError] for it.  The parser reaches this for [X] and [Q]
    when the first line of the body is a cross-reference continuation and
    a [Q] card follows: that card becomes the first line of a record. *)
Theorem header_types_cannot_be_added (U : Util) (ds : Dataset)
  (r0 : string) (rest : list string) (c : ascii)
  (cmts : list (list string)) (xr : list string) (level : option nat) :
  String.get 7 r0 = Some c ->
  c = "X"%char \/ c = "Q"%char \/ c = "L"%char ->
  _add_record U ds (r0 :: rest) cmts xr level = Raise TypeError
  /\ classify_body xref_then_level = Ok XrefContinuation
  /\ Fixture.parse
       (Fixture.unlines [Fixture.header_card; xref_then_level;
                         Fixture.qvalue_card]) = Raise TypeError.
Proof.
  intros Hget Hc.
  split; [| split; vm_compute; reflexivity].
  unfold _add_record, get_record_type. cbn [seq_item0 bind].
  rewrite (index_get _ _ _ Hget). cbn [bind].
  destruct Hc as [-> | [-> | ->]]; reflexivity.
Qed.

Lemma header_types_cannot_be_added_witness :
  _add_record SpecUtil.util Fixture.empty_dataset [Fixture.qvalue_card]
    [] [] None = Raise TypeError.
Proof.
  apply (header_types_cannot_be_added SpecUtil.util Fixture.empty_dataset
           Fixture.qvalue_card [] "Q"%char [] [] None).
  - reflexivity.
  - right. left. reflexivity.
Defined.
